(** * Chronicle Harvester: a shallow embedding of [data_harvester/main.py]

    The handler [chronicle_harvester_agent] fetches a JSON feed, annotates the
    first three records and uploads each one to a Cloud Storage bucket.  The
    embedding below follows the Python text statement by statement.  What the
    handler does to the outside world (the HTTP fetch, the clock, the random
    source, the bucket, standard output) is threaded through a reader/state/
    exception monad; the outside world's answers are collected in a [World]. *)

From Stdlib Require Import List String Ascii Bool Arith NArith ZArith Lia.
Import ListNotations.

Local Open Scope string_scope.
Local Open Scope list_scope.

(* ===================================================================== *)
(** ** Python values decoded from JSON *)
(* ===================================================================== *)

(** A Python [dict] keeps its keys in insertion order; [json.dumps] writes
    them in that order, so a mapping is an association list. *)
#[warnings="-register-all"]
Inductive json : Type :=
| JNull                                 (* None  *)
| JBool  (b : bool)                     (* bool  *)
| JInt   (n : Z)                        (* int   *)
| JFloat (literal : string)             (* float, kept as its decimal literal *)
| JStr   (s : string)                   (* str   *)
| JArr   (items : list json)            (* list  *)
| JObj   (fields : list (string * json)). (* dict *)

Definition dict := list (string * json).

(** [d.get(k)] *)
Fixpoint dict_get (k : string) (d : dict) : option json :=
  match d with
  | [] => None
  | (k', v') :: rest => if (k' =? k)%string then Some v' else dict_get k rest
  end.

(** [d[k] = v]: an existing key keeps its position and gets the new value,
    a new key is appended at the end. *)
Fixpoint dict_set (k : string) (v : json) (d : dict) : dict :=
  match d with
  | [] => [(k, v)]
  | (k', v') :: rest =>
      if (k' =? k)%string then (k', v) :: rest else (k', v') :: dict_set k v rest
  end.

Definition dict_keys (d : dict) : list string := map fst d.

Definition dict_has (k : string) (d : dict) : bool :=
  match dict_get k d with Some _ => true | None => false end.

Definition is_mapping (v : json) : bool :=
  match v with JObj _ => true | _ => false end.

(** [type(v).__name__] *)
Definition type_name (v : json) : string :=
  match v with
  | JNull => "NoneType"
  | JBool _ => "bool"
  | JInt _ => "int"
  | JFloat _ => "float"
  | JStr _ => "str"
  | JArr _ => "list"
  | JObj _ => "dict"
  end.

(* ===================================================================== *)
(** ** Exceptions *)
(* ===================================================================== *)

(** The handler has two [except] clauses, [requests.exceptions.RequestException]
    and [Exception]; an exception is its class, as far as those clauses tell
    classes apart, and the text [str(e)] gives.  Only subclasses of
    [Exception] are modelled. *)
Inductive exn_class : Type :=
| HTTPError          (* requests.exceptions.HTTPError *)
| RequestException   (* any other subclass of requests.exceptions.RequestException *)
| TypeError
| IndexError
| ValueError
| OtherException.    (* any other subclass of Exception *)

Record exn : Type := mk_exn { exn_cls : exn_class; exn_str : string }.

(** [isinstance(e, requests.exceptions.RequestException)] *)
Definition is_request_exception (e : exn) : bool :=
  match exn_cls e with
  | HTTPError | RequestException => true
  | TypeError | IndexError | ValueError | OtherException => false
  end.

(* ===================================================================== *)
(** ** Text formatting: decimal numbers, [datetime.isoformat], [UUID.hex] *)
(* ===================================================================== *)

Definition digit_char (n : N) : ascii :=
  match n with
  | 0 => "0" | 1 => "1" | 2 => "2" | 3 => "3" | 4 => "4"
  | 5 => "5" | 6 => "6" | 7 => "7" | 8 => "8" | _ => "9"
  end%N%char.

(** The decimal digits of [n], most significant first, pushed in front of
    [acc]; [fuel] bounds the number of digits. *)
Fixpoint decimal_digits (fuel : nat) (n : N) (acc : string) : string :=
  match fuel with
  | O => acc
  | S fuel' =>
      let acc' := String (digit_char (n mod 10)) acc in
      if (n / 10 =? 0)%N then acc' else decimal_digits fuel' (n / 10) acc'
  end.

(** [str(n)] for a natural number. *)
Definition decimal (n : N) : string :=
  decimal_digits (S (N.to_nat (N.log2 n))) n "".

(** [int(s)] for a string of decimal digits, continuing from the value [v]
    of the digits already read. *)
Fixpoint digits_value (v : N) (s : string) : N :=
  match s with
  | EmptyString => v
  | String c s' => digits_value (10 * v + (N_of_ascii c - 48)) s'
  end.

Fixpoint zeros (k : nat) : string :=
  match k with O => "" | S k' => String "0"%char (zeros k') end.

(** ["%0<width>d" % n] *)
Definition zero_padded (width : nat) (n : N) : string :=
  let s := decimal n in zeros (width - String.length s) ++ s.

(** [str(z)] for an [int]. *)
Definition str_of_int (z : Z) : string :=
  match z with
  | Z0 => "0"
  | Zpos p => decimal (Npos p)
  | Zneg p => "-" ++ decimal (Npos p)
  end.

(** A naive [datetime.datetime], as [datetime.now()] returns it. *)
Record datetime : Type := mk_datetime {
  year : N; month : N; day : N;
  hour : N; minute : N; second : N; microsecond : N
}.

(** The ranges the [datetime] class enforces on its fields. *)
Definition valid_datetime (t : datetime) : Prop :=
  (1 <= year t <= 9999 /\ 1 <= month t <= 12 /\ 1 <= day t <= 31 /\
   hour t < 24 /\ minute t < 60 /\ second t < 60 /\ microsecond t < 1000000)%N.

(** [t.isoformat()]: [YYYY-MM-DDTHH:MM:SS], followed by [.ffffff] when the
    microsecond field is not zero. *)
Definition iso_date_time (t : datetime) : string :=
  zero_padded 4 (year t) ++ "-" ++ zero_padded 2 (month t) ++ "-" ++
  zero_padded 2 (day t) ++ "T" ++ zero_padded 2 (hour t) ++ ":" ++
  zero_padded 2 (minute t) ++ ":" ++ zero_padded 2 (second t).

Definition isoformat (t : datetime) : string :=
  iso_date_time t ++
  (if (microsecond t =? 0)%N then "" else "." ++ zero_padded 6 (microsecond t)).

Definition hex_char (n : N) : ascii :=
  match n with
  | 0 => "0" | 1 => "1" | 2 => "2" | 3 => "3" | 4 => "4" | 5 => "5"
  | 6 => "6" | 7 => "7" | 8 => "8" | 9 => "9" | 10 => "a" | 11 => "b"
  | 12 => "c" | 13 => "d" | 14 => "e" | _ => "f"
  end%N%char.

(** The [i]-th hexadecimal digit of [n], counted from the least significant. *)
Definition nibble (n : N) (i : nat) : N :=
  N.land (N.shiftr n (4 * N.of_nat i)) 15.

(** The [k] low hexadecimal digits of [n], most significant first. *)
Fixpoint hex_digits (k : nat) (n : N) : string :=
  match k with
  | O => ""
  | S k' => String (hex_char (nibble n k')) (hex_digits k' n)
  end.

(** [UUID.hex], that is ['%032x' % self.int], for the 128-bit [int] of a UUID. *)
Definition uuid_hex (u : N) : string := hex_digits 32 u.

(** A character class of a fixed-width pattern. *)
Inductive cclass : Type :=
| Lit (c : ascii)
| Digit
| LowerHex.

Definition is_digit (c : ascii) : bool :=
  let n := N_of_ascii c in ((48 <=? n) && (n <=? 57))%N.

Definition is_lower_hex (c : ascii) : bool :=
  let n := N_of_ascii c in
  (((48 <=? n) && (n <=? 57)) || ((97 <=? n) && (n <=? 102)))%N.

Definition in_class (cl : cclass) (c : ascii) : bool :=
  match cl with
  | Lit c' => Ascii.eqb c' c
  | Digit => is_digit c
  | LowerHex => is_lower_hex c
  end.

(** [matches p s]: [s] has exactly one character per class of [p], in order. *)
Fixpoint matches (p : list cclass) (s : string) : bool :=
  match p, s with
  | [], EmptyString => true
  | cl :: p', String c s' => in_class cl c && matches p' s'
  | _, _ => false
  end.

Fixpoint lits (s : string) : list cclass :=
  match s with
  | EmptyString => []
  | String c s' => Lit c :: lits s'
  end.

(** [YYYY-MM-DDTHH:MM:SS] and [YYYY-MM-DDTHH:MM:SS.ffffff] *)
Definition iso_seconds : list cclass :=
  repeat Digit 4 ++ [Lit "-"%char] ++ repeat Digit 2 ++ [Lit "-"%char] ++
  repeat Digit 2 ++ [Lit "T"%char] ++ repeat Digit 2 ++ [Lit ":"%char] ++
  repeat Digit 2 ++ [Lit ":"%char] ++ repeat Digit 2.

Definition iso_micros : list cclass :=
  iso_seconds ++ [Lit "."%char] ++ repeat Digit 6.

Definition is_isoformat (s : string) : bool :=
  matches iso_seconds s || matches iso_micros s.

(** [raw_data/<timestamp>-<8 lowercase hex characters>.json] *)
Definition key_pattern (iso : list cclass) : list cclass :=
  lits "raw_data/" ++ iso ++ [Lit "-"%char] ++ repeat LowerHex 8 ++ lits ".json".

Definition is_object_key (s : string) : bool :=
  matches (key_pattern iso_seconds) s || matches (key_pattern iso_micros) s.

(* ===================================================================== *)
(** ** Operations on Python values *)
(* ===================================================================== *)

Fixpoint chars (s : string) : list json :=
  match s with
  | EmptyString => []
  | String c s' => JStr (String c EmptyString) :: chars s'
  end.

(** The items the loop [for entry in v[:n]] visits.  A list gives its first
    [n] items and a string its first [n] characters (one-character strings;
    the loop fails on the first of them); nothing else can be sliced (a
    [dict] refuses the slice as a key: [TypeError] up to CPython 3.11,
    [KeyError] since, both handled by the same [except] clause). *)
Definition slice_to (n : nat) (v : json) : exn + list json :=
  match v with
  | JArr items => inr (firstn n items)
  | JStr s => inr (firstn n (chars s))
  | JObj _ => inl (mk_exn TypeError "unhashable type: 'slice'")
  | _ => inl (mk_exn TypeError ("'" ++ type_name v ++ "' object is not subscriptable"))
  end.

(** [entry[key] = value] *)
Definition setitem (entry : json) (key : string) (value : json) : exn + json :=
  match entry with
  | JObj d => inr (JObj (dict_set key value d))
  | JArr _ => inl (mk_exn TypeError "list indices must be integers or slices, not str")
  | _ => inl (mk_exn TypeError
                ("'" ++ type_name entry ++ "' object does not support item assignment"))
  end.

(* ===================================================================== *)
(** ** The outside world and the handler's state *)
(* ===================================================================== *)

(** What [requests.get] returns: the status line and what [response.json()]
    gives, either the decoded value or the exception the decoder raises on a
    body that is not JSON. *)
Record Response : Type := mk_response {
  url : string;
  status_code : Z;
  reason : string;
  json_result : exn + json
}.

(** A [storage.Client], bound to a project; the handles [client.bucket(name)]
    and [bucket.blob(name)] give.  Making a handle calls no service, but the
    bucket handle checks its name. *)
Record Client : Type := mk_client { client_project : string }.

Record Bucket : Type := mk_bucket { bucket_client : Client; bucket_name : string }.

Record Blob : Type := mk_blob { blob_bucket : Bucket; blob_name : string }.

(** [c.isalnum()] for a character, the characters of this development being
    the code points below 256: the ASCII digits and letters, and the letters
    and numeric signs of the upper half (all of it from U+00C0 on but the
    signs of multiplication and division). *)
Definition isalnum (c : ascii) : bool :=
  let n := N_of_ascii c in
  (((48 <=? n) && (n <=? 57)) || ((65 <=? n) && (n <=? 90)) ||
   ((97 <=? n) && (n <=? 122)) ||
   (n =? 170) || (n =? 178) || (n =? 179) || (n =? 181) || (n =? 185) ||
   (n =? 186) || ((188 <=? n) && (n <=? 190)) ||
   ((192 <=? n) && (n <=? 214)) || ((216 <=? n) && (n <=? 246)) ||
   (248 <=? n))%N.

(** [s[-1]] for the string [String c s]. *)
Fixpoint last_char (c : ascii) (s : string) : ascii :=
  match s with
  | EmptyString => c
  | String c' s' => last_char c' s'
  end.

(** The check the bucket handle makes on its name,
    [all([name[0].isalnum(), name[-1].isalnum()])]: indexing the empty name
    raises [IndexError], a name that does not start and end with a letter or
    a digit is refused with [ValueError]. *)
Definition validate_name (name : string) : exn + string :=
  match name with
  | EmptyString => inl (mk_exn IndexError "string index out of range")
  | String c rest =>
      if isalnum c && isalnum (last_char c rest) then inr name
      else inl (mk_exn ValueError
                  "Bucket names must start and end with a number or letter.")
  end.

(** [client.bucket(name)] *)
Definition client_bucket (client : Client) (name : string) : exn + Bucket :=
  match validate_name name with
  | inl e => inl e
  | inr name' => inr (mk_bucket client name')
  end.

Definition bucket_blob (b : Bucket) (name : string) : Blob := mk_blob b name.

Section Harvester.

(** The text [json.dumps] produces.  The serializer is the library's; the
    handler only passes its result to the upload.  Values decoded from JSON
    are always serializable, so [json_dumps] is total. *)
Variable text : Type.
Variable json_dumps : json -> nat -> text.      (* json.dumps(obj, indent=n) *)

(** A blob written to Cloud Storage. *)
Record StoredObject : Type := mk_object {
  obj_bucket : string;
  obj_name : string;
  obj_data : text;
  obj_content_type : string
}.

(** The answers of the environment during one run.  Clock readings, UUIDs and
    upload outcomes are indexed by the number of earlier calls. *)
Record World : Type := mk_world {
  environ : string -> option string;        (* os.environ *)
  client_init : string -> option exn;       (* storage.Client(project=p) raising *)
  http_get : string -> exn + Response;      (* requests.get(url) *)
  clock : nat -> datetime;                  (* datetime.datetime.now() *)
  entropy : nat -> N;                       (* uuid.uuid4().int *)
  upload_fault : nat -> option exn          (* blob.upload_from_string(...) raising *)
}.

(** [bucket] lists the objects written so far, oldest first. *)
Record State : Type := mk_state {
  stdout : list string;
  ticks : nat;       (* clock readings taken *)
  draws : nat;       (* UUIDs drawn *)
  uploads : nat;     (* upload calls made *)
  bucket : list StoredObject
}.

(** Computations that read the world, update the state and may raise.  The
    state reached when an exception is raised is kept: an upload that
    happened stays in the bucket. *)
Definition M (A : Type) : Type := World -> State -> (exn + A) * State.

Definition ret {A} (a : A) : M A := fun _ s => (inr a, s).

Definition raise {A} (e : exn) : M A := fun _ s => (inl e, s).

Definition bind {A B} (m : M A) (k : A -> M B) : M B :=
  fun w s =>
    match m w s with
    | (inl e, s') => (inl e, s')
    | (inr a, s') => k a w s'
    end.

(** An operation that touches neither the world nor the state. *)
Definition lift {A} (r : exn + A) : M A := fun _ s => (r, s).

Notation "x <- m ;; k" := (bind m (fun x => k))
  (at level 61, m at next level, right associativity).
Notation "m ;; k" := (bind m (fun _ => k))
  (at level 61, right associativity).

(** [try: body  except Exception as e: handler(e)] *)
Definition try_except {A} (body : M A) (handler : exn -> M A) : M A :=
  fun w s =>
    match body w s with
    | (inl e, s') => handler e w s'
    | (inr a, s') => (inr a, s')
    end.

(** *** Library calls *)

Definition print (line : string) : M unit :=
  fun _ s =>
    (inr tt, mk_state (stdout s ++ [line]) (ticks s) (draws s) (uploads s) (bucket s)).

(** [os.environ.get(name, default)] *)
Definition environ_get (w : World) (name default : string) : string :=
  match environ w name with Some v => v | None => default end.

(** Reading a module-level constant; those of [main.py] are computed from the
    environment when the module is loaded. *)
Definition global {A} (c : World -> A) : M A := fun w s => (inr (c w), s).

(** [datetime.datetime.now()] *)
Definition datetime_now : M datetime :=
  fun w s =>
    (inr (clock w (ticks s)),
     mk_state (stdout s) (S (ticks s)) (draws s) (uploads s) (bucket s)).

(** [uuid.uuid4()], as its 128-bit integer *)
Definition uuid4 : M N :=
  fun w s =>
    (inr (entropy w (draws s)),
     mk_state (stdout s) (ticks s) (S (draws s)) (uploads s) (bucket s)).

(** [storage.Client(project=p)] *)
Definition storage_Client (project : string) : M Client :=
  fun w s =>
    match client_init w project with
    | Some e => (inl e, s)
    | None => (inr (mk_client project), s)
    end.

(** [requests.get(url)] *)
Definition requests_get (url : string) : M Response :=
  fun w s => (http_get w url, s).

(** [response.raise_for_status()]: an [HTTPError] for a 4xx or 5xx status. *)
Definition raise_for_status (r : Response) : M unit :=
  if (400 <=? status_code r)%Z && (status_code r <? 500)%Z then
    raise (mk_exn HTTPError
             (str_of_int (status_code r) ++ " Client Error: " ++ reason r ++
              " for url: " ++ url r))
  else if (500 <=? status_code r)%Z && (status_code r <? 600)%Z then
    raise (mk_exn HTTPError
             (str_of_int (status_code r) ++ " Server Error: " ++ reason r ++
              " for url: " ++ url r))
  else ret tt.

(** [response.json()] *)
Definition response_json (r : Response) : M json := lift (json_result r).

(** [blob.upload_from_string(data, content_type=ct)]: the object is written
    unless the call raises. *)
Definition upload_from_string (blob : Blob) (data : text) (content_type : string)
    : M unit :=
  fun w s =>
    match upload_fault w (uploads s) with
    | Some e =>
        (inl e, mk_state (stdout s) (ticks s) (draws s) (S (uploads s)) (bucket s))
    | None =>
        (inr tt,
         mk_state (stdout s) (ticks s) (draws s) (S (uploads s))
           (bucket s ++
            [mk_object (bucket_name (blob_bucket blob)) (blob_name blob) data
               content_type]))
    end.

(** *** main.py *)

Definition GCP_PROJECT_ID (w : World) : string :=
  environ_get w "GCP_PROJECT_ID" "nexusscout".

Definition CLOUD_STORAGE_BUCKET (w : World) : string :=
  environ_get w "CLOUD_STORAGE_BUCKET" "nexusscout-raw-data-sriramo-23jun2025-1".

Definition MOCK_DATA_URL : string := "https://jsonplaceholder.typicode.com/posts".

(** [f"raw_data/{timestamp}-{uuid.uuid4().hex[:8]}.json"] *)
Definition file_name_of (timestamp : string) (u : N) : string :=
  "raw_data/" ++ timestamp ++ "-" ++ substring 0 8 (uuid_hex u) ++ ".json".

Definition ingest_data_entry (entry_data : json) (client : Client) : M string :=
  now <- datetime_now ;;
  let timestamp := isoformat now in
  u <- uuid4 ;;
  let file_name := file_name_of timestamp u in
  name <- global CLOUD_STORAGE_BUCKET ;;
  bucket <- lift (client_bucket client name) ;;
  let blob := bucket_blob bucket file_name in
  let json_data := json_dumps entry_data 2 in
  upload_from_string blob json_data "application/json" ;;
  print ("Uploaded " ++ file_name ++ " to Cloud Storage.") ;;
  ret file_name.

(** The body of [for entry in mock_data_entries[:3]], over the items still to
    visit. *)
Fixpoint harvest_entries (client : Client) (entries : list json)
    (uploaded_files : list string) : M (list string) :=
  match entries with
  | [] => ret uploaded_files
  | entry :: rest =>
      now <- datetime_now ;;
      entry <- lift (setitem entry "harvest_timestamp" (JStr (isoformat now))) ;;
      entry <- lift (setitem entry "source_url" (JStr MOCK_DATA_URL)) ;;
      entry <- lift (setitem entry "agent" (JStr "ChronicleHarvester")) ;;
      uploaded_file_name <- ingest_data_entry entry client ;;
      harvest_entries client rest (uploaded_files ++ [uploaded_file_name])
  end.

Definition success_body (uploaded_files : list string) : json :=
  JObj [("status", JStr "success"); ("uploaded_files", JArr (map JStr uploaded_files))].

Definition error_body (message : string) : json :=
  JObj [("status", JStr "error"); ("message", JStr message)].

(** The [try] block of the handler. *)
Definition harvest (storage_client : Client) : M (json * Z) :=
  response <- requests_get MOCK_DATA_URL ;;
  raise_for_status response ;;
  mock_data_entries <- response_json response ;;
  selected <- lift (slice_to 3 mock_data_entries) ;;
  uploaded_files <- harvest_entries storage_client selected [] ;;
  print ("Chronicle Harvester Agent: Successfully harvested and uploaded " ++
         decimal (N.of_nat (List.length uploaded_files)) ++ " entries.") ;;
  ret (success_body uploaded_files, 200%Z).

(** The two [except] clauses, tried in order. *)
Definition on_exception (e : exn) : M (json * Z) :=
  if is_request_exception e then
    print ("Chronicle Harvester Agent: HTTP request failed: " ++ exn_str e) ;;
    ret (error_body ("HTTP request failed: " ++ exn_str e), 500%Z)
  else
    print ("Chronicle Harvester Agent: An unexpected error occurred: " ++ exn_str e) ;;
    ret (error_body ("An unexpected error occurred: " ++ exn_str e), 500%Z).

(** How a call of the handler ends: it returns a body and a status code, or
    an exception leaves it. *)
Inductive Outcome : Type :=
| Returned (body : json) (code : Z)
| Raised (e : exn).

Definition chronicle_harvester_agent {Request : Type} (request : Request)
    (w : World) (s : State) : Outcome * State :=
  let handler : M (json * Z) :=
    print "Chronicle Harvester Agent: Initiating data collection..." ;;
    project <- global GCP_PROJECT_ID ;;
    storage_client <- storage_Client project ;;
    try_except (harvest storage_client) on_exception in
  match handler w s with
  | (inr (body, code), s') => (Returned body code, s')
  | (inl e, s') => (Raised e, s')
  end.

(** *** Notions used to state what a run does *)

(** The record the loop hands to [ingest_data_entry]: the three item
    assignments, in the order the loop makes them. *)
Definition annotate (timestamp : string) (d : dict) : dict :=
  dict_set "agent" (JStr "ChronicleHarvester")
    (dict_set "source_url" (JStr MOCK_DATA_URL)
       (dict_set "harvest_timestamp" (JStr timestamp) d)).

(** The exception [client.bucket(CLOUD_STORAGE_BUCKET)] raises, if any. *)
Definition bucket_error (w : World) : option exn :=
  match validate_name (CLOUD_STORAGE_BUCKET w) with
  | inl e => Some e
  | inr _ => None
  end.

(** What stops [ingest_data_entry] between the UUID and the [print], when
    [n] uploads were called before: the exception of [client.bucket] or, when
    the bucket name is accepted, the exception of the upload. *)
Definition ingest_fault (w : World) (n : nat) : option exn :=
  match bucket_error w with
  | Some e => Some e
  | None => upload_fault w n
  end.

(** The upload calls made when [ingest_data_entry] is over: none when the
    bucket name is refused. *)
Definition uploads_after (w : World) (n : nat) : nat :=
  match bucket_error w with
  | Some _ => n
  | None => S n
  end.

(** The object one iteration writes for the record [d], when the iteration
    starts after [t] clock readings and [r] UUIDs. *)
Definition stored_object (w : World) (t r : nat) (d : dict) : StoredObject :=
  mk_object (CLOUD_STORAGE_BUCKET w)
    (file_name_of (isoformat (clock w (S t))) (entropy w r))
    (json_dumps (JObj (annotate (isoformat (clock w t)) d)) 2)
    "application/json".

Fixpoint stored_objects (w : World) (t r : nat) (ds : list dict) : list StoredObject :=
  match ds with
  | [] => []
  | d :: ds' => stored_object w t r d :: stored_objects w (S (S t)) (S r) ds'
  end.

(** The items the loop visits: the first three of the decoded feed. *)
Definition feed_selection (w : World) : list json :=
  match http_get w MOCK_DATA_URL with
  | inr response =>
      match json_result response with
      | inr v => match slice_to 3 v with inr selected => selected | inl _ => [] end
      | inl _ => []
      end
  | inl _ => []
  end.

(** [raise_for_status] raises: the status is 4xx or 5xx. *)
Definition bad_status (r : Response) : bool :=
  (400 <=? status_code r)%Z && (status_code r <? 600)%Z.

(** The [message] of the error body for the exception [e]. *)
Definition error_message (e : exn) : string :=
  (if is_request_exception e then "HTTP request failed: "
   else "An unexpected error occurred: ") ++ exn_str e.

(** The exception [raise_for_status] raises for a 4xx or 5xx response. *)
Definition http_error (r : Response) : exn :=
  mk_exn HTTPError
    (str_of_int (status_code r) ++
     (if (status_code r <? 500)%Z then " Client Error: " else " Server Error: ") ++
     reason r ++ " for url: " ++ url r).

(** The state after [print(line)]. *)
Definition printed (line : string) (s : State) : State :=
  mk_state (stdout s ++ [line]) (ticks s) (draws s) (uploads s) (bucket s).

(** The state after one iteration that stored the record [d], and after
    storing the records [ds] one after the other. *)
Definition harvested (w : World) (s : State) (d : dict) : State :=
  mk_state
    (stdout s ++
     [("Uploaded " ++ obj_name (stored_object w (ticks s) (draws s) d) ++
       " to Cloud Storage.")%string])
    (S (S (ticks s))) (S (draws s)) (S (uploads s))
    (bucket s ++ [stored_object w (ticks s) (draws s) d]).

Fixpoint harvested_all (w : World) (s : State) (ds : list dict) : State :=
  match ds with
  | [] => s
  | d :: ds' => harvested_all w (harvested w s d) ds'
  end.

(** [body.get(k)] for a returned body. *)
Definition body_get (k : string) (body : json) : option json :=
  match body with
  | JObj d => dict_get k d
  | _ => None
  end.

(** The decoded feeds whose items the loop can annotate: an array whose
    first three items are mappings, and the empty string, which has no item. *)
Definition accepted_feed (v : json) : bool :=
  match v with
  | JArr items => forallb is_mapping (firstn 3 items)
  | JStr EmptyString => true
  | _ => false
  end.

End Harvester.

Arguments mk_state {text} _ _ _ _ _.
Arguments mk_object {text} _ _ _ _.
Arguments raise_for_status {text} r _ _.
Arguments printed {text} line s.
Arguments ingest_data_entry {text} json_dumps entry_data client _ _.
Arguments harvest_entries {text} json_dumps client entries uploaded_files _ _.
Arguments harvest {text} json_dumps storage_client _ _.
Arguments chronicle_harvester_agent {text} json_dumps {Request} request w s.
Arguments stored_object {text} json_dumps w t r d.
Arguments stored_objects {text} json_dumps w t r ds.
Arguments harvested {text} json_dumps w s d.
Arguments harvested_all {text} json_dumps w s ds.
Arguments stdout {text} _.
Arguments ticks {text} _.
Arguments draws {text} _.
Arguments uploads {text} _.
Arguments bucket {text} _.
Arguments obj_bucket {text} _.
Arguments obj_name {text} _.
Arguments obj_data {text} _.
Arguments obj_content_type {text} _.

(** *** The lines the handler prints *)

(** [print("Chronicle Harvester Agent: Initiating data collection...")] *)
Definition start_line : string :=
  "Chronicle Harvester Agent: Initiating data collection...".

(** [print(f"Uploaded {file_name} to Cloud Storage.")], for the object written. *)
Definition uploaded_line {text : Type} (o : StoredObject text) : string :=
  "Uploaded " ++ obj_name o ++ " to Cloud Storage.".

(** The line printed after the loop, for [n] uploaded files. *)
Definition success_line (n : nat) : string :=
  "Chronicle Harvester Agent: Successfully harvested and uploaded " ++
  decimal (N.of_nat n) ++ " entries.".

(** The line an [except] clause prints, for the message it returns. *)
Definition failure_line (message : string) : string :=
  "Chronicle Harvester Agent: " ++ message.

(** The response [r] with another status code, and with another decoded
    body. *)
Definition with_status (r : Response) (status : Z) : Response :=
  mk_response (url r) status (reason r) (json_result r).

Definition with_body (r : Response) (v : json) : Response :=
  mk_response (url r) (status_code r) (reason r) (inr v).

(** The world [w], except that the endpoint answers with [response]. *)
Definition with_response (w : World) (response : Response) : World :=
  mk_world (environ w) (client_init w) (fun _ => inr response)
    (clock w) (entropy w) (upload_fault w).

(* ===================================================================== *)
(** ** Sample worlds *)
(* ===================================================================== *)

(** A serializer for the sample runs: the text of a value is taken to be the
    value itself, so that a stored body can be read without a parser. *)
Definition tree_dumps (v : json) (indent : nat) : json := v.

Definition tree_loads (t : json) : option json := Some t.

(** 2025-06-23 14:05:09, the [n]-th reading [n] microseconds later. *)
Definition sample_clock (n : nat) : datetime :=
  mk_datetime 2025 6 23 14 5 9 (N.of_nat n).

(** The [n]-th UUID starts with the hexadecimal digits of [0xdeadbeef + n]. *)
Definition sample_entropy (n : nat) : N :=
  ((3735928559 + N.of_nat n) * 2 ^ 96)%N.

(** A world with no environment variable set, whose storage client, fetch
    and uploads answer as given. *)
Definition sample_world (client : option exn) (fetch : exn + Response)
    (fault : nat -> option exn) : World :=
  mk_world (fun _ => None) (fun _ => client) (fun _ => fetch)
    sample_clock sample_entropy fault.

Definition no_fault (n : nat) : option exn := None.

Definition sample_response (status : Z) (reason : string) (body : exn + json) : Response :=
  mk_response MOCK_DATA_URL status reason body.

Definition empty_state : State json := mk_state [] 0 0 0 [].

(** A call of the handler in the world [w], on an empty bucket. *)
Definition sample_run (w : World) : Outcome * State json :=
  chronicle_harvester_agent tree_dumps tt w empty_state.

(** The feed of the specification's end-to-end scenario. *)
Definition first_post : dict := [("id", JInt 1); ("title", JStr "a")].

Definition second_post : dict := [("id", JInt 2); ("title", JStr "b")].

Definition two_posts : list json := [JObj first_post; JObj second_post].

Definition world_two_posts : World :=
  sample_world None (inr (sample_response 200 "OK" (inr (JArr two_posts)))) no_fault.

(** A record that already has an [agent] field. *)
Definition colliding_post : dict := [("id", JInt 2); ("agent", JStr "b")].

Definition world_colliding_key : World :=
  sample_world None
    (inr (sample_response 200 "OK" (inr (JArr [JObj colliding_post])))) no_fault.


(** The endpoint answers 300 Multiple Choices, with a feed as body. *)
Definition world_status_300 : World :=
  sample_world None
    (inr (sample_response 300 "Multiple Choices" (inr (JArr [JObj [("id", JInt 1)]]))))
    no_fault.

(** The endpoint answers 503. *)
Definition world_status_503 : World :=
  sample_world None
    (inr (sample_response 503 "Service Unavailable" (inr (JArr two_posts)))) no_fault.

(** Three mappings followed by a number. *)
Definition world_fourth_item_number : World :=
  sample_world None
    (inr (sample_response 200 "OK" (inr (JArr [JObj []; JObj []; JObj []; JInt 1]))))
    no_fault.

(** The body is the empty JSON string. *)
Definition world_empty_string : World :=
  sample_world None (inr (sample_response 200 "OK" (inr (JStr "")))) no_fault.

(** A mapping followed by a number. *)
Definition world_second_item_number : World :=
  sample_world None
    (inr (sample_response 200 "OK" (inr (JArr [JObj [("id", JInt 1)]; JInt 1]))))
    no_fault.

(** The body is no JSON. *)
Definition world_not_json : World :=
  sample_world None
    (inr (sample_response 200 "OK"
            (inl (mk_exn RequestException "Expecting value: line 1 column 1 (char 0)"))))
    no_fault.

(** The second upload raises. *)
Definition world_second_upload_fails : World :=
  sample_world None (inr (sample_response 200 "OK" (inr (JArr two_posts))))
    (fun n => match n with
              | 1 => Some (mk_exn OtherException "503 POST: Service Unavailable")
              | _ => None
              end).


(** Five posts: two more than the handler takes. *)
Definition third_post : dict := [("id", JInt 3); ("title", JStr "c")].

Definition five_posts : list json :=
  [JObj first_post; JObj second_post; JObj third_post;
   JObj [("id", JInt 4)]; JInt 5].

Definition world_five_posts : World :=
  sample_world None (inr (sample_response 200 "OK" (inr (JArr five_posts)))) no_fault.

(** Two answers with the same first three posts: five posts with 200, three
    posts with another status outside 4xx and 5xx. *)
Definition response_five_posts : Response :=
  sample_response 200 "OK" (inr (JArr five_posts)).

Definition response_three_posts : Response :=
  mk_response "https://example.org/posts" 203 "Non-Authoritative Information"
    (inr (JArr [JObj first_post; JObj second_post; JObj third_post])).

(** A deployment that sets both environment variables. *)
Definition world_configured : World :=
  mk_world
    (fun name =>
       if (name =? "CLOUD_STORAGE_BUCKET")%string then Some "harvest-test"
       else if (name =? "GCP_PROJECT_ID")%string then Some "scout-test"
       else None)
    (fun project =>
       if (project =? "scout-test")%string then None
       else Some (mk_exn OtherException "Your default credentials were not found."))
    (fun _ => inr (sample_response 200 "OK" (inr (JArr two_posts))))
    sample_clock sample_entropy no_fault.

(** A deployment whose bucket variable holds a URL, not a name. *)
Definition world_bucket_url : World :=
  mk_world
    (fun name =>
       if (name =? "CLOUD_STORAGE_BUCKET")%string then Some "gs://harvest-test/"
       else None)
    (fun _ => None)
    (fun _ => inr (sample_response 200 "OK" (inr (JArr two_posts))))
    sample_clock sample_entropy no_fault.

(** A deployment whose bucket variable is set and empty. *)
Definition world_bucket_empty : World :=
  mk_world
    (fun name =>
       if (name =? "CLOUD_STORAGE_BUCKET")%string then Some "" else None)
    (fun _ => None)
    (fun _ => inr (sample_response 200 "OK" (inr (JArr two_posts))))
    sample_clock sample_entropy no_fault.

(** The state the first run over the two posts leaves, and the second run
    from there. *)
Definition state_after_one_run : State json := snd (sample_run world_two_posts).

Definition second_sample_run : Outcome * State json :=
  chronicle_harvester_agent tree_dumps tt world_two_posts state_after_one_run.

(* ===================================================================== *)
(** ** Facts about strings and fixed-width patterns *)
(* ===================================================================== *)

Section Formatting.

Local Open Scope string_scope.

Lemma length_append (a b : string) :
  String.length (a ++ b) = String.length a + String.length b.
Proof. induction a as [|c a IH]; simpl; [reflexivity | now rewrite IH]. Qed.

Lemma append_nil_r (a : string) : a ++ "" = a.
Proof. induction a as [|c a IH]; simpl; [reflexivity | now rewrite IH]. Qed.

Lemma append_assoc (a b c : string) : (a ++ b) ++ c = a ++ (b ++ c).
Proof. induction a as [|x a IH]; simpl; [reflexivity | now rewrite IH]. Qed.

(** Two concatenations with tails of one length agree part by part. *)
Lemma append_inj_tail (a c b d : string) :
  a ++ b = c ++ d -> String.length b = String.length d -> a = c /\ b = d.
Proof.
  revert c. induction a as [|x a IH]; intros [|y c] H L; simpl in H.
  - now split.
  - exfalso. rewrite H in L. simpl in L. rewrite length_append in L. lia.
  - exfalso. rewrite <- H in L. simpl in L. rewrite length_append in L. lia.
  - injection H as -> H. destruct (IH c H L) as [-> ->]. now split.
Qed.

Lemma matches_app (p q : list cclass) (s t : string) :
  matches p s = true -> matches q t = true -> matches (p ++ q) (s ++ t) = true.
Proof.
  revert s. induction p as [|cl p IH]; intros [|c s] Hp Hq; simpl in *;
    try discriminate; auto.
  apply andb_true_iff in Hp as [Hc Hp]. rewrite Hc. simpl. now apply IH.
Qed.

Lemma matches_length (p : list cclass) (s : string) :
  matches p s = true -> String.length s = List.length p.
Proof.
  revert s. induction p as [|cl p IH]; intros [|c s] H; simpl in *;
    try discriminate; auto.
  apply andb_true_iff in H as [_ H]. f_equal. now apply IH.
Qed.

Lemma matches_lits (s : string) : matches (lits s) s = true.
Proof.
  induction s as [|c s IH]; simpl; [reflexivity|].
  now rewrite Ascii.eqb_refl, IH.
Qed.

Lemma matches_zeros (k : nat) : matches (repeat Digit k) (zeros k) = true.
Proof. induction k; simpl; auto. Qed.

Lemma is_digit_digit_char (n : N) : is_digit (digit_char n) = true.
Proof.
  destruct n as [|p]; [reflexivity|].
  do 4 (try destruct p as [p|p|]; try reflexivity).
Qed.

Lemma is_lower_hex_hex_char (n : N) : is_lower_hex (hex_char n) = true.
Proof.
  destruct n as [|p]; [reflexivity|].
  do 4 (try destruct p as [p|p|]; try reflexivity).
Qed.

(** The digits [decimal_digits] writes: at least one, all decimal, and no
    more than the size of the number asks for. *)
Lemma decimal_digits_spec (fuel : nat) :
  forall (n : N) (acc : string),
  exists ds,
    decimal_digits (S fuel) n acc = ds ++ acc /\
    matches (repeat Digit (String.length ds)) ds = true /\
    forall k, 1 <= k -> (n < 10 ^ N.of_nat k)%N -> String.length ds <= k.
Proof.
  induction fuel as [|fuel IH]; intros n acc.
  - exists (String (digit_char (n mod 10)) "").
    split; [simpl; now destruct (n / 10 =? 0)%N|].
    split; [simpl; now rewrite is_digit_digit_char|].
    intros k Hk _. simpl. lia.
  - cbn [decimal_digits]. destruct (n / 10 =? 0)%N eqn:E.
    + exists (String (digit_char (n mod 10)) "").
      split; [reflexivity|].
      split; [simpl; now rewrite is_digit_digit_char|].
      intros k Hk _. simpl. lia.
    + destruct (IH (n / 10)%N (String (digit_char (n mod 10)) acc))
        as (ds & Heq & Hdig & Hlen).
      exists (ds ++ String (digit_char (n mod 10)) "").
      split; [rewrite append_assoc; exact Heq|].
      split.
      * rewrite length_append, repeat_app. apply matches_app; [exact Hdig|].
        simpl. now rewrite is_digit_digit_char.
      * intros k Hk Hn. rewrite length_append. simpl.
        apply N.eqb_neq in E.
        destruct k as [|[|k]]; [lia| |].
        -- exfalso. apply E. apply N.div_small. exact Hn.
        -- assert (String.length ds <= S k); [|lia].
           apply Hlen; [lia|].
           apply N.Div0.div_lt_upper_bound.
           rewrite <- N.pow_succ_r'. now rewrite <- Nat2N.inj_succ.
Qed.

Lemma digit_char_value (n : N) : (n < 10)%N -> (N_of_ascii (digit_char n) - 48 = n)%N.
Proof.
  intros Hn. destruct n as [|p]; [reflexivity|].
  do 4 (try destruct p as [p|p|]; try reflexivity); exfalso; lia.
Qed.

(** With fuel for the binary size of [n], [decimal_digits] writes all the
    digits of [n]: reading them back gives [n]. *)
Lemma decimal_digits_value (fuel : nat) :
  forall (n : N) (acc : string),
    (n < 2 ^ N.of_nat fuel)%N ->
    exists k,
      (n < 10 ^ N.of_nat k)%N /\
      forall v,
        digits_value v (decimal_digits fuel n acc) =
        digits_value (v * 10 ^ N.of_nat k + n) acc.
Proof.
  induction fuel as [|fuel IH]; intros n acc Hn.
  - assert (n = 0%N) as -> by (change (2 ^ N.of_nat 0)%N with 1%N in Hn; lia).
    exists 0. split; [reflexivity|]. intros v. cbn [decimal_digits]. f_equal.
    change (10 ^ N.of_nat 0)%N with 1%N. lia.
  - cbn [decimal_digits]. destruct (n / 10 =? 0)%N eqn:E.
    + apply N.eqb_eq in E. exists 1.
      assert (n < 10)%N as Hsmall
        by (destruct (N.lt_ge_cases n 10) as [H|H]; [exact H|];
            apply (N.Div0.div_le_mono _ _ 10) in H; rewrite N.div_same in H; lia).
      split; [exact Hsmall|]. intros v. cbn [digits_value].
      rewrite N.mod_small, digit_char_value by exact Hsmall. f_equal.
      change (10 ^ N.of_nat 1)%N with 10%N. lia.
    + destruct (IH (n / 10)%N (String (digit_char (n mod 10)) acc)) as (k & Hk & Hv).
      { rewrite Nat2N.inj_succ, N.pow_succ_r' in Hn.
        apply N.Div0.div_lt_upper_bound. lia. }
      exists (S k). rewrite Nat2N.inj_succ, N.pow_succ_r'. split.
      * pose proof (N.Div0.div_mod n 10) as Hdm.
        pose proof (N.mod_lt n 10 ltac:(lia)) as Hm. lia.
      * intros v. rewrite Hv. cbn [digits_value].
        rewrite digit_char_value by (apply N.mod_lt; lia). f_equal.
        pose proof (N.Div0.div_mod n 10) as Hdm. lia.
Qed.

(** [decimal] is a right inverse of reading a number: it loses no digit. *)
Lemma decimal_value (n : N) : digits_value 0 (decimal n) = n.
Proof.
  unfold decimal.
  destruct (decimal_digits_value (S (N.to_nat (N.log2 n))) n "") as (k & _ & Hv).
  - destruct n as [|p]; [reflexivity|].
    rewrite Nat2N.inj_succ, N2Nat.id. apply N.log2_spec. lia.
  - rewrite Hv. reflexivity.
Qed.

Lemma zero_padded_matches (width : nat) (n : N) :
  1 <= width -> (n < 10 ^ N.of_nat width)%N ->
  matches (repeat Digit width) (zero_padded width n) = true.
Proof.
  intros Hw Hn. unfold zero_padded, decimal.
  destruct (decimal_digits_spec (N.to_nat (N.log2 n)) n "") as (ds & -> & Hdig & Hlen).
  rewrite append_nil_r. specialize (Hlen width Hw Hn).
  replace width with ((width - String.length ds) + String.length ds) at 1 by lia.
  rewrite repeat_app. apply matches_app; [apply matches_zeros | exact Hdig].
Qed.

Lemma iso_date_time_matches (t : datetime) :
  valid_datetime t -> matches iso_seconds (iso_date_time t) = true.
Proof.
  intros (Hy & Hm & Hd & Hh & Hmi & Hs & _).
  unfold iso_seconds, iso_date_time.
  repeat (apply matches_app;
          [first [ reflexivity | apply zero_padded_matches; [lia | simpl; lia] ] |]).
  apply zero_padded_matches; [lia | simpl; lia].
Qed.

(** [isoformat] writes the ISO-8601 shape. *)
Lemma isoformat_shape (t : datetime) :
  valid_datetime t ->
  if (microsecond t =? 0)%N then matches iso_seconds (isoformat t) = true
  else matches iso_micros (isoformat t) = true.
Proof.
  intros Hv. unfold isoformat. destruct (microsecond t =? 0)%N.
  - rewrite append_nil_r. now apply iso_date_time_matches.
  - unfold iso_micros. apply matches_app; [now apply iso_date_time_matches|].
    apply (matches_app [Lit "."%char] _ "."); [reflexivity|].
    destruct Hv as (_ & _ & _ & _ & _ & _ & Hu).
    apply zero_padded_matches; [lia | simpl; lia].
Qed.

Lemma isoformat_is_isoformat (t : datetime) :
  valid_datetime t -> is_isoformat (isoformat t) = true.
Proof.
  intros Hv. pose proof (isoformat_shape t Hv) as H. unfold is_isoformat.
  destruct (microsecond t =? 0)%N; rewrite H; auto using orb_true_r.
Qed.

Lemma hex_suffix_matches (u : N) :
  matches (repeat LowerHex 8) (substring 0 8 (uuid_hex u)) = true.
Proof.
  unfold uuid_hex. cbn [hex_digits substring repeat matches in_class].
  now rewrite !is_lower_hex_hex_char.
Qed.

Lemma hex_suffix_length (u : N) : String.length (substring 0 8 (uuid_hex u)) = 8.
Proof. rewrite (matches_length _ _ (hex_suffix_matches u)). reflexivity. Qed.

(** The patterns are exact: a short suffix, an upper-case digit, a missing
    fraction digit or another prefix is refused. *)
Example is_object_key_accepts :
  is_object_key "raw_data/2025-06-23T14:05:09.000001-deadbeef.json" = true /\
  is_object_key "raw_data/2025-06-23T14:05:09-0123abcd.json" = true.
Proof. split; reflexivity. Qed.

Example is_object_key_refuses :
  is_object_key "raw_data/2025-06-23T14:05:09-deadbee.json" = false /\
  is_object_key "raw_data/2025-06-23T14:05:09-DEADBEEF.json" = false /\
  is_object_key "raw_data/2025-06-23T14:05:09.00001-deadbeef.json" = false /\
  is_object_key "raw/2025-06-23T14:05:09-deadbeef.json" = false /\
  is_object_key "raw_data/2025-06-23 14:05:09-deadbeef.json" = false.
Proof. repeat split; reflexivity. Qed.

Lemma file_name_of_matches (iso : list cclass) (timestamp : string) (u : N) :
  matches iso timestamp = true ->
  matches (key_pattern iso) (file_name_of timestamp u) = true.
Proof.
  intros H. unfold key_pattern, file_name_of.
  apply matches_app; [apply matches_lits|].
  apply matches_app; [exact H|].
  apply (matches_app [Lit "-"%char] _ "-"); [reflexivity|].
  apply matches_app; [apply hex_suffix_matches | apply matches_lits].
Qed.

(** A key determines the timestamp and the random suffix it was built from. *)
Lemma file_name_of_inj (ts1 ts2 : string) (u1 u2 : N) :
  file_name_of ts1 u1 = file_name_of ts2 u2 ->
  ts1 = ts2 /\ substring 0 8 (uuid_hex u1) = substring 0 8 (uuid_hex u2).
Proof.
  unfold file_name_of. intros H.
  apply (append_inj_tail "raw_data/" "raw_data/") in H.
  - destruct H as [_ H]. apply append_inj_tail in H.
    + destruct H as [-> H]. split; [reflexivity|].
      apply (append_inj_tail "-" "-") in H.
      * destruct H as [_ H].
        apply append_inj_tail in H; [exact (proj1 H) | reflexivity].
      * rewrite !length_append, !hex_suffix_length. reflexivity.
    + rewrite !length_append, !hex_suffix_length. reflexivity.
  - revert H. generalize (ts1 ++ "-" ++ substring 0 8 (uuid_hex u1) ++ ".json").
    generalize (ts2 ++ "-" ++ substring 0 8 (uuid_hex u2) ++ ".json").
    intros a b H. simpl in H. now inversion H.
Qed.

End Formatting.

(* ===================================================================== *)
(** ** Facts about dictionaries *)
(* ===================================================================== *)

Lemma dict_get_set_same (k : string) (v : json) (d : dict) :
  dict_get k (dict_set k v d) = Some v.
Proof.
  induction d as [|[k' v'] d IH]; simpl.
  - now rewrite String.eqb_refl.
  - destruct (k' =? k)%string eqn:E; simpl; now rewrite E.
Qed.

Lemma dict_get_set_other (k k' : string) (v : json) (d : dict) :
  k' <> k -> dict_get k (dict_set k' v d) = dict_get k d.
Proof.
  intros Hne. pose proof (proj2 (String.eqb_neq k' k) Hne) as Hb.
  induction d as [|[k0 v0] d IH]; simpl.
  - now rewrite Hb.
  - destruct (k0 =? k')%string eqn:E; simpl.
    + apply String.eqb_eq in E. subst k0. now rewrite Hb.
    + now rewrite IH.
Qed.

Lemma dict_has_set (k k' : string) (v : json) (d : dict) :
  dict_has k (dict_set k' v d) = (k' =? k)%string || dict_has k d.
Proof.
  unfold dict_has. destruct (k' =? k)%string eqn:E.
  - apply String.eqb_eq in E. subst. now rewrite dict_get_set_same.
  - apply String.eqb_neq in E. now rewrite dict_get_set_other.
Qed.

(** An assignment keeps the keys where they are; a new key goes last. *)
Lemma dict_keys_set (k : string) (v : json) (d : dict) :
  dict_keys (dict_set k v d) = dict_keys d ++ (if dict_has k d then [] else [k]).
Proof.
  unfold dict_has, dict_keys. induction d as [|[k' v'] d IH]; simpl.
  - reflexivity.
  - destruct (k' =? k)%string eqn:E; simpl.
    + now rewrite app_nil_r.
    + now rewrite IH.
Qed.

(** What the three assignments leave under each key. *)
Lemma annotate_get (timestamp : string) (d : dict) (k : string) :
  dict_get k (annotate timestamp d) =
  if (k =? "agent")%string then Some (JStr "ChronicleHarvester")
  else if (k =? "source_url")%string then Some (JStr MOCK_DATA_URL)
  else if (k =? "harvest_timestamp")%string then Some (JStr timestamp)
  else dict_get k d.
Proof.
  unfold annotate.
  destruct (String.eqb_spec k "agent") as [->|Ha]; [apply dict_get_set_same|].
  rewrite dict_get_set_other by congruence.
  destruct (String.eqb_spec k "source_url") as [->|Hs]; [apply dict_get_set_same|].
  rewrite dict_get_set_other by congruence.
  destruct (String.eqb_spec k "harvest_timestamp") as [->|Ht]; [apply dict_get_set_same|].
  now rewrite dict_get_set_other by congruence.
Qed.

(** The keys after the three assignments: those of the record, where they
    were, then the injected keys the record did not have. *)
Lemma annotate_keys (timestamp : string) (d : dict) :
  dict_keys (annotate timestamp d) =
  dict_keys d ++
  filter (fun k => negb (dict_has k d)) ["harvest_timestamp"; "source_url"; "agent"].
Proof.
  unfold annotate. rewrite !dict_keys_set, !dict_has_set.
  cbn [String.eqb Ascii.eqb Bool.eqb orb filter].
  destruct (dict_has "harvest_timestamp" d), (dict_has "source_url" d),
    (dict_has "agent" d); cbn [negb app]; rewrite <- ?app_assoc, ?app_nil_r; reflexivity.
Qed.

Lemma annotate_keys_in_place (timestamp : string) (d : dict) :
  firstn (List.length d) (dict_keys (annotate timestamp d)) = dict_keys d.
Proof.
  rewrite annotate_keys, firstn_app. unfold dict_keys.
  rewrite length_map, Nat.sub_diag, firstn_all2 by (rewrite length_map; lia).
  cbn [firstn]. now rewrite app_nil_r.
Qed.

Section Correctness.

Variable text : Type.
Variable json_dumps : json -> nat -> text.
Variable json_loads : text -> option json.

(** What the handler relies on from the [json] module: decoding what
    [json.dumps] wrote gives the value back. *)
Hypothesis loads_dumps : forall v n, json_loads (json_dumps v n) = Some v.

(** The objects a run that starts in the state [s] writes for the records
    [ds]. *)
Local Abbreviation written w s ds :=
  (stored_objects json_dumps w (ticks s) (draws s) ds).

(** *** One iteration of the loop *)

Lemma validate_name_inr (name name' : string) :
  validate_name name = inr name' -> name' = name.
Proof.
  destruct name as [|c rest]; cbn [validate_name]; [discriminate|].
  destruct (isalnum c && isalnum (last_char c rest)); [congruence | discriminate].
Qed.

(** An iteration on a mapping: the name of the bucket is checked, then the
    object is uploaded. *)
Lemma harvest_entries_mapping (c : Client) (d : dict) (rest : list json)
    (acc : list string) (w : World) (s : State text) :
  harvest_entries json_dumps c (JObj d :: rest) acc w s =
  match ingest_fault w (uploads s) with
  | Some e =>
      (inl e, mk_state (stdout s) (S (S (ticks s))) (S (draws s))
                (uploads_after w (uploads s)) (bucket s))
  | None =>
      harvest_entries json_dumps c rest
        (acc ++ [obj_name (stored_object json_dumps w (ticks s) (draws s) d)]) w
        (harvested json_dumps w s d)
  end.
Proof.
  destruct s as [out t r u b]. cbn [harvest_entries].
  unfold ingest_fault, uploads_after, bucket_error.
  cbv beta iota zeta delta
    [bind datetime_now lift ingest_data_entry uuid4 global upload_from_string
     client_bucket bucket_blob bucket_name blob_bucket blob_name
     print ret setitem stdout ticks draws uploads bucket].
  destruct (validate_name (CLOUD_STORAGE_BUCKET w)) as [e|name] eqn:Hname;
    [reflexivity|].
  apply validate_name_inr in Hname. subst name.
  destruct (upload_fault w u); reflexivity.
Qed.

Lemma harvest_entries_other (x : json) :
  is_mapping x = false ->
  exists e,
    is_request_exception e = false /\
    forall (c : Client) (rest : list json) (acc : list string) (w : World)
           (s : State text),
      harvest_entries json_dumps c (x :: rest) acc w s =
      (inl e, mk_state (stdout s) (S (ticks s)) (draws s) (uploads s) (bucket s)).
Proof.
  intros Hx.
  destruct x; try discriminate; eexists; (split; [|intros; reflexivity]); reflexivity.
Qed.

(** *** The loop as a whole *)

Lemma after_bucket (w : World) (ds : list dict) :
  forall s, bucket (harvested_all json_dumps w s ds) = bucket s ++ written w s ds.
Proof.
  induction ds as [|d ds IH]; intros s; simpl.
  - now rewrite app_nil_r.
  - rewrite IH. simpl. now rewrite <- app_assoc.
Qed.

Lemma after_counters (w : World) (ds : list dict) :
  forall s,
    ticks (harvested_all json_dumps w s ds) = ticks s + 2 * List.length ds /\
    draws (harvested_all json_dumps w s ds) = draws s + List.length ds /\
    uploads (harvested_all json_dumps w s ds) = uploads s + List.length ds.
Proof.
  induction ds as [|d ds IH]; intros s; simpl.
  - lia.
  - destruct (IH (harvested json_dumps w s d)) as (-> & -> & ->). simpl. lia.
Qed.

Lemma length_objects (w : World) (ds : list dict) :
  forall t r, List.length (stored_objects json_dumps w t r ds) = List.length ds.
Proof. induction ds as [|d ds IH]; intros t r; simpl; [reflexivity | now rewrite IH]. Qed.

(** The [i]-th object belongs to the [i]-th record. *)
Lemma nth_error_objects (w : World) (ds : list dict) :
  forall t r i d,
    nth_error ds i = Some d ->
    nth_error (stored_objects json_dumps w t r ds) i =
      Some (stored_object json_dumps w (t + 2 * i) (r + i) d).
Proof.
  induction ds as [|d0 ds IH]; intros t r [|i] d H; simpl in *; try discriminate.
  - injection H as ->. now rewrite !Nat.add_0_r.
  - rewrite (IH _ _ _ _ H). do 2 f_equal; lia.
Qed.

Lemma nth_error_objects_inv (w : World) (ds : list dict) :
  forall t r i o,
    nth_error (stored_objects json_dumps w t r ds) i = Some o ->
    exists d,
      nth_error ds i = Some d /\ o = stored_object json_dumps w (t + 2 * i) (r + i) d.
Proof.
  intros t r i o H. destruct (nth_error ds i) as [d|] eqn:E.
  - exists d. split; [reflexivity|].
    rewrite (nth_error_objects w ds t r i d E) in H. now injection H.
  - exfalso. apply nth_error_None in E.
    assert (nth_error (stored_objects json_dumps w t r ds) i = None) as N
      by (apply nth_error_None; now rewrite length_objects).
    congruence.
Qed.

Lemma uploads_after_bounds (w : World) (n : nat) :
  n <= uploads_after w n <= S n.
Proof. unfold uploads_after. destruct (bucket_error w); lia. Qed.

(** While the records are mappings and can be stored (the bucket name is
    accepted, the uploads go through), the loop
    stores them one after the other. *)
Lemma harvest_entries_prefix (c : Client) (w : World) (ds : list dict) :
  forall (rest : list json) (acc : list string) (s : State text),
    (forall i, i < List.length ds -> ingest_fault w (uploads s + i) = None) ->
    harvest_entries json_dumps c (map JObj ds ++ rest) acc w s =
    harvest_entries json_dumps c rest (acc ++ map obj_name (written w s ds)) w
      (harvested_all json_dumps w s ds).
Proof.
  induction ds as [|d ds IH]; intros rest acc s Hok.
  - simpl. now rewrite app_nil_r.
  - cbn [map app]. rewrite harvest_entries_mapping.
    pose proof (Hok 0 ltac:(simpl; lia)) as H0. rewrite Nat.add_0_r in H0. rewrite H0.
    rewrite IH.
    + cbn [stored_objects harvested_all map harvested ticks draws].
      now rewrite <- app_assoc.
    + intros i Hi. cbn [harvested uploads].
      replace (S (uploads s) + i) with (uploads s + S i) by lia.
      apply Hok. simpl. lia.
Qed.

(** Whatever the items and the uploads do, the loop stops after storing the
    records of a prefix of the items; it returns only when that prefix is the
    whole list. *)
Lemma harvest_entries_run (c : Client) (w : World) (entries : list json) :
  forall (acc : list string) (s : State text) r s',
    harvest_entries json_dumps c entries acc w s = (r, s') ->
    exists ds rest,
      entries = map JObj ds ++ rest /\
      bucket s' = bucket s ++ written w s ds /\
      draws s + List.length ds <= draws s' <= draws s + List.length entries /\
      uploads s + List.length ds <= uploads s' <= uploads s + List.length entries /\
      match r with
      | inr files =>
          rest = [] /\ files = acc ++ map obj_name (written w s ds)
      | inl e => rest <> []
      end.
Proof.
  induction entries as [|x entries IH]; intros acc s r s' Hrun.
  - simpl in Hrun. injection Hrun as <- <-. exists [], []. simpl.
    rewrite !app_nil_r. repeat split; lia.
  - destruct (is_mapping x) eqn:Hx.
    + destruct x; try discriminate. rename fields into d.
      rewrite harvest_entries_mapping in Hrun.
      destruct (ingest_fault w (uploads s)) as [e|].
      * injection Hrun as <- <-. exists [], (JObj d :: entries). simpl.
        pose proof (uploads_after_bounds w (uploads s)).
        rewrite app_nil_r. repeat split; try lia. discriminate.
      * apply IH in Hrun. destruct Hrun as (ds & rest & -> & Hb & Hd & Hu & Hr).
        exists (d :: ds), rest. cbn [harvested bucket ticks draws uploads] in *.
        split; [reflexivity|]. split; [rewrite Hb; simpl; now rewrite <- app_assoc|].
        cbn [List.length]. rewrite ?length_app, ?length_map in *.
        split; [lia|]. split; [lia|].
        destruct r as [e|files]; [exact Hr|].
        destruct Hr as [-> ->]. split; [reflexivity|]. simpl. now rewrite <- app_assoc.
    + destruct (harvest_entries_other x Hx) as (e & _ & He).
      rewrite He in Hrun. injection Hrun as <- <-.
      exists [], (x :: entries). simpl. rewrite app_nil_r.
      repeat split; try lia. discriminate.
Qed.

(** *** The [try] block and the handler *)

Lemma raise_for_status_eq (r : Response) (w : World) (s : State text) :
  raise_for_status r w s =
  if bad_status r then (inl (http_error r), s) else (inr tt, s).
Proof.
  unfold raise_for_status, bad_status, http_error.
  destruct (Z.leb_spec 400 (status_code r)), (Z.ltb_spec (status_code r) 500),
    (Z.leb_spec 500 (status_code r)), (Z.ltb_spec (status_code r) 600);
    simpl; try reflexivity; lia.
Qed.

Lemma harvest_eq (c : Client) (w : World) (s : State text) :
  harvest json_dumps c w s =
  match http_get w MOCK_DATA_URL with
  | inl e => (inl e, s)
  | inr response =>
      if bad_status response then (inl (http_error response), s)
      else
        match json_result response with
        | inl e => (inl e, s)
        | inr v =>
            match slice_to 3 v with
            | inl e => (inl e, s)
            | inr selected =>
                match harvest_entries json_dumps c selected [] w s with
                | (inl e, s') => (inl e, s')
                | (inr uploaded_files, s') =>
                    (inr (success_body uploaded_files, 200%Z),
                     printed
                       ("Chronicle Harvester Agent: Successfully harvested and uploaded " ++
                        decimal (N.of_nat (List.length uploaded_files)) ++ " entries.") s')
                end
            end
        end
  end.
Proof.
  unfold harvest, bind at 1, requests_get.
  destruct (http_get w MOCK_DATA_URL) as [e|response]; [reflexivity|].
  unfold bind at 1. rewrite raise_for_status_eq.
  destruct (bad_status response); [reflexivity|].
  unfold bind at 1, response_json, lift at 1.
  destruct (json_result response) as [e|v]; [reflexivity|].
  unfold bind at 1, lift at 1.
  destruct (slice_to 3 v) as [e|selected]; [reflexivity|].
  unfold bind at 1.
  destruct (harvest_entries json_dumps c selected [] w s) as [[e|files] s'];
    reflexivity.
Qed.

Lemma agent_eq {Request : Type} (request : Request) (w : World) (s : State text) :
  chronicle_harvester_agent json_dumps request w s =
  let s0 := printed "Chronicle Harvester Agent: Initiating data collection..." s in
  match client_init w (GCP_PROJECT_ID w) with
  | Some e => (Raised e, s0)
  | None =>
      match harvest json_dumps (mk_client (GCP_PROJECT_ID w)) w s0 with
      | (inr (body, code), s') => (Returned body code, s')
      | (inl e, s') =>
          (Returned (error_body (error_message e)) 500%Z,
           printed ("Chronicle Harvester Agent: " ++ error_message e) s')
      end
  end.
Proof.
  unfold chronicle_harvester_agent, bind at 1, print at 1, bind at 1, global at 1,
    bind at 1, storage_Client.
  cbv zeta.
  destruct (client_init w (GCP_PROJECT_ID w)) as [e|]; [reflexivity|].
  unfold try_except.
  destruct (harvest json_dumps (mk_client (GCP_PROJECT_ID w)) w _) as [[e|[body code]] s'];
    [|reflexivity].
  unfold on_exception, error_message.
  destruct (is_request_exception e); reflexivity.
Qed.

(** What the [try] block adds to the bucket: the objects of the records of
    a prefix of the selection, and of all of it when the block returns. *)
Lemma harvest_run (c : Client) (w : World) (s : State text)
    (r : exn + json * Z) (s1 : State text) :
  harvest json_dumps c w s = (r, s1) ->
  exists ds rest,
    bucket s1 = bucket s ++ written w s ds /\
    draws s + List.length ds <= draws s1 /\
    (ds = [] \/ feed_selection w = map JObj ds ++ rest) /\
    match r with
    | inl _ => True
    | inr (body, code) =>
        body = success_body (map obj_name (written w s ds)) /\
        code = 200%Z /\ feed_selection w = map JObj ds /\ rest = []
    end.
Proof.
  rewrite harvest_eq. unfold feed_selection.
  assert (forall e, (inl e, s) = (r, s1) ->
            exists (ds : list dict) (rest : list json),
              bucket s1 = bucket s ++ written w s ds /\
              draws s + List.length ds <= draws s1 /\ ds = [] /\
              match r with inl _ => True | inr _ => False end) as Early.
  { intros e H. injection H as <- <-. exists [], []. simpl.
    rewrite app_nil_r. repeat split. lia. }
  destruct (http_get w MOCK_DATA_URL) as [e|response].
  { intros H. destruct (Early e H) as (ds & rest & ? & ? & ? & ?).
    exists ds, rest. destruct r; [tauto | contradiction]. }
  destruct (bad_status response).
  { intros H. destruct (Early _ H) as (ds & rest & ? & ? & ? & ?).
    exists ds, rest. destruct r; [tauto | contradiction]. }
  destruct (json_result response) as [e|v].
  { intros H. destruct (Early e H) as (ds & rest & ? & ? & ? & ?).
    exists ds, rest. destruct r; [tauto | contradiction]. }
  destruct (slice_to 3 v) as [e|selected].
  { intros H. destruct (Early e H) as (ds & rest & ? & ? & ? & ?).
    exists ds, rest. destruct r; [tauto | contradiction]. }
  clear Early.
  destruct (harvest_entries json_dumps c selected [] w s)
    as [[e|files] s2] eqn:Hloop; intros H; injection H as <- <-;
    apply harvest_entries_run in Hloop;
    destruct Hloop as (ds & rest & -> & Hb & Hd & _ & Hr);
    cbn [printed bucket ticks draws] in *; exists ds, rest.
  - repeat split; [exact Hb | exact (proj1 Hd) | now right].
  - destruct Hr as [-> ->]. rewrite app_nil_r.
    repeat split; [exact Hb | exact (proj1 Hd) | now right].
Qed.

(** Every run, classified.  The objects a run adds to the bucket are those
    of the records of a prefix of the selection; the run ends in one of three
    ways: the storage client could not be built and its exception leaves the
    handler, the [try] block raised and the handler returns the error body,
    or the whole selection was stored and the handler returns the paths. *)
Lemma agent_run {Request : Type} (request : Request) (w : World) (s : State text)
    (out : Outcome) (s' : State text) :
  chronicle_harvester_agent json_dumps request w s = (out, s') ->
  exists ds rest,
    bucket s' = bucket s ++ written w s ds /\
    draws s + List.length ds <= draws s' /\
    (ds = [] \/ feed_selection w = map JObj ds ++ rest) /\
    ((exists e, out = Raised e /\ client_init w (GCP_PROJECT_ID w) = Some e /\ ds = []) \/
     (exists e, out = Returned (error_body (error_message e)) 500%Z /\
                client_init w (GCP_PROJECT_ID w) = None) \/
     (out = Returned (success_body (map obj_name (written w s ds))) 200%Z /\
      client_init w (GCP_PROJECT_ID w) = None /\
      feed_selection w = map JObj ds /\ rest = [])).
Proof.
  rewrite agent_eq. cbv zeta.
  destruct (client_init w (GCP_PROJECT_ID w)) as [e|] eqn:Hclient.
  - intros H. injection H as <- <-. exists [], [].
    cbn [printed bucket draws stored_objects].
    rewrite app_nil_r. repeat split; [simpl; lia | now left |].
    left. now exists e.
  - destruct (harvest json_dumps (mk_client (GCP_PROJECT_ID w)) w _)
      as [[e|[body code]] s1] eqn:Hrun; intros H; injection H as <- <-;
      apply harvest_run in Hrun; destruct Hrun as (ds & rest & Hb & Hd & Hsel & Hr);
      cbn [printed bucket ticks draws] in *; exists ds, rest.
    + repeat split; [exact Hb | exact Hd | exact Hsel |]. right. left. now exists e.
    + destruct Hr as (-> & -> & Hf & ->).
      repeat split; [exact Hb | exact Hd | exact Hsel |]. right. right. now repeat split.
Qed.

Lemma mappings_are_dicts (l : list json) :
  Forall (fun v => is_mapping v = true) l -> exists ds, l = map JObj ds.
Proof.
  induction 1 as [|x l Hx _ (ds & ->)]; [now exists []|].
  destruct x; try discriminate. now exists (fields :: ds).
Qed.

(** *** The harvest of a well-formed feed *)

(** C1, amended.  When the feed decodes to an array of [M] mappings and
    nothing fails on the way (the storage client is built, the answer has no
    4xx or 5xx status and, for each of the [min M 3] records to store, the
    bucket name is accepted and the upload raises nothing), the handler
    writes exactly [min M 3] objects, one per record of the first three and
    in their order, and returns the mapping with [status] [success] and, as
    [uploaded_files], their paths in that order, with the code 200; for
    [M = 0] the path list is empty. *)
Theorem harvest_stores_first_three {Request : Type} (request : Request)
    (w : World) (s : State text) (response : Response) (entries : list json) :
  client_init w (GCP_PROJECT_ID w) = None ->
  http_get w MOCK_DATA_URL = inr response ->
  bad_status response = false ->
  json_result response = inr (JArr entries) ->
  Forall (fun v => is_mapping v = true) entries ->
  (forall i, i < Nat.min (List.length entries) 3 ->
             ingest_fault w (uploads s + i) = None) ->
  exists ds s',
    firstn 3 entries = map JObj ds /\
    chronicle_harvester_agent json_dumps request w s =
      (Returned
         (JObj [("status", JStr "success");
                ("uploaded_files",
                 JArr (map JStr (map obj_name (written w s ds))))])
         200%Z, s') /\
    bucket s' = bucket s ++ written w s ds /\
    List.length (written w s ds) = Nat.min (List.length entries) 3 /\
    List.length (map obj_name (written w s ds)) =
      Nat.min (List.length entries) 3 /\
    forall i d,
      i < 3 -> nth_error entries i = Some (JObj d) ->
      nth_error (written w s ds) i =
        Some (stored_object json_dumps w (ticks s + 2 * i) (draws s + i) d).
Proof.
  intros Hclient Hget Hstatus Hjson Hmaps Hup.
  destruct (mappings_are_dicts entries Hmaps) as (all & ->).
  rewrite length_map in Hup.
  exists (firstn 3 all). eexists.
  split; [apply firstn_map|].
  assert (List.length (firstn 3 all) = Nat.min (List.length all) 3) as Hlen
    by (rewrite length_firstn; lia).
  split; [|split; [|split; [|split]]].
  - rewrite agent_eq, Hclient. cbv zeta. rewrite harvest_eq, Hget, Hstatus, Hjson.
    cbn [slice_to]. rewrite firstn_map, <- (app_nil_r (map JObj (firstn 3 all))).
    rewrite harvest_entries_prefix
      by (intros i Hi; apply Hup; rewrite length_firstn in Hi; lia).
    cbn [harvest_entries ret app printed ticks draws]. reflexivity.
  - cbn [printed bucket]. rewrite after_bucket. reflexivity.
  - rewrite length_objects, length_map. exact Hlen.
  - rewrite length_map, length_objects, length_map. exact Hlen.
  - intros i d Hi Hnth. apply nth_error_objects.
    rewrite nth_error_firstn. apply Nat.ltb_lt in Hi. rewrite Hi.
    rewrite nth_error_map in Hnth.
    destruct (nth_error all i) as [d0|] eqn:E; simpl in Hnth; [|discriminate].
    injection Hnth as ->. reflexivity.
Qed.

(** The object a run stored in [i]-th place is the one of the [i]-th item of
    the selection, which is a mapping. *)
Lemma stored_object_of_run {Request : Type} (request : Request) (w : World)
    (s s' : State text) (out : Outcome) (new : list (StoredObject text))
    (i : nat) (obj : StoredObject text) :
  chronicle_harvester_agent json_dumps request w s = (out, s') ->
  bucket s' = bucket s ++ new ->
  nth_error new i = Some obj ->
  exists d,
    nth_error (feed_selection w) i = Some (JObj d) /\
    obj = stored_object json_dumps w (ticks s + 2 * i) (draws s + i) d /\
    draws s + i < draws s'.
Proof.
  intros Hrun Hnew Hobj.
  destruct (agent_run request w s out s' Hrun) as (ds & rest & Hb & Hd & Hsel & _).
  rewrite Hb in Hnew. apply app_inv_head in Hnew. subst new.
  destruct (nth_error_objects_inv w ds _ _ _ _ Hobj) as (d & Hd0 & ->).
  exists d. assert (i < List.length ds) as Hi by (apply nth_error_Some; congruence).
  split; [|split; [reflexivity | lia]].
  destruct Hsel as [-> | ->]; [destruct i; discriminate|].
  rewrite nth_error_app1 by now rewrite length_map.
  now apply map_nth_error.
Qed.

(** *** The content of a stored object *)

(** C2, amended.  Take the object a run stored for a selected record that has
    none of the keys [harvest_timestamp], [source_url] and [agent].  Decoded,
    its content has the keys of the record followed by those three and no
    other; the record's fields keep their values; the three injected fields
    hold the capture time in ISO-8601 form, the endpoint URL and the constant
    [ChronicleHarvester]. *)
Theorem stored_record_fields {Request : Type} (request : Request) (w : World)
    (s s' : State text) (out : Outcome) (new : list (StoredObject text))
    (i : nat) (obj : StoredObject text) (d : dict) :
  chronicle_harvester_agent json_dumps request w s = (out, s') ->
  bucket s' = bucket s ++ new ->
  nth_error new i = Some obj ->
  nth_error (feed_selection w) i = Some (JObj d) ->
  dict_has "harvest_timestamp" d = false ->
  dict_has "source_url" d = false ->
  dict_has "agent" d = false ->
  valid_datetime (clock w (ticks s + 2 * i)) ->
  exists stored,
    json_loads (obj_data obj) = Some (JObj stored) /\
    dict_keys stored = dict_keys d ++ ["harvest_timestamp"; "source_url"; "agent"] /\
    (forall k v, dict_get k d = Some v -> dict_get k stored = Some v) /\
    dict_get "harvest_timestamp" stored =
      Some (JStr (isoformat (clock w (ticks s + 2 * i)))) /\
    is_isoformat (isoformat (clock w (ticks s + 2 * i))) = true /\
    dict_get "source_url" stored = Some (JStr MOCK_DATA_URL) /\
    dict_get "agent" stored = Some (JStr "ChronicleHarvester").
Proof.
  intros Hrun Hnew Hobj Hsel Hts Hurl Hagent Hvalid.
  destruct (stored_object_of_run request w s s' out new i obj Hrun Hnew Hobj)
    as (d' & Hsel' & -> & _).
  assert (d' = d) as -> by congruence.
  exists (annotate (isoformat (clock w (ticks s + 2 * i))) d).
  split; [cbn [stored_object obj_data]; apply loads_dumps|].
  split; [rewrite annotate_keys; cbn [filter]; now rewrite Hts, Hurl, Hagent|].
  split; [|repeat split; try (rewrite annotate_get; reflexivity);
           now apply isoformat_is_isoformat].
  intros k v Hk. rewrite annotate_get.
  unfold dict_has in Hts, Hurl, Hagent.
  destruct (String.eqb_spec k "agent") as [->|_]; [now rewrite Hk in Hagent|].
  destruct (String.eqb_spec k "source_url") as [->|_]; [now rewrite Hk in Hurl|].
  destruct (String.eqb_spec k "harvest_timestamp") as [->|_]; [now rewrite Hk in Hts|].
  exact Hk.
Qed.

(** C10.  Take the object a run stored for a selected record.  Decoded, its
    content holds under [harvest_timestamp], [source_url] and [agent] the
    capture time, the endpoint URL and the constant [ChronicleHarvester],
    whatever the record held there: a value the source supplied under one of
    these keys is replaced, not kept.  The keys of the record stay where they
    were, and every other key keeps its value. *)
Theorem injected_keys_overwrite {Request : Type} (request : Request) (w : World)
    (s s' : State text) (out : Outcome) (new : list (StoredObject text))
    (i : nat) (obj : StoredObject text) (d : dict) :
  chronicle_harvester_agent json_dumps request w s = (out, s') ->
  bucket s' = bucket s ++ new ->
  nth_error new i = Some obj ->
  nth_error (feed_selection w) i = Some (JObj d) ->
  exists stored,
    json_loads (obj_data obj) = Some (JObj stored) /\
    dict_get "harvest_timestamp" stored =
      Some (JStr (isoformat (clock w (ticks s + 2 * i)))) /\
    dict_get "source_url" stored = Some (JStr MOCK_DATA_URL) /\
    dict_get "agent" stored = Some (JStr "ChronicleHarvester") /\
    (forall v, dict_get "harvest_timestamp" d = Some v ->
               v <> JStr (isoformat (clock w (ticks s + 2 * i))) ->
               dict_get "harvest_timestamp" stored <> Some v) /\
    (forall v, dict_get "source_url" d = Some v -> v <> JStr MOCK_DATA_URL ->
               dict_get "source_url" stored <> Some v) /\
    (forall v, dict_get "agent" d = Some v -> v <> JStr "ChronicleHarvester" ->
               dict_get "agent" stored <> Some v) /\
    firstn (List.length d) (dict_keys stored) = dict_keys d /\
    (forall k, k <> "harvest_timestamp" -> k <> "source_url" -> k <> "agent" ->
               dict_get k stored = dict_get k d).
Proof.
  intros Hrun Hnew Hobj Hsel.
  destruct (stored_object_of_run request w s s' out new i obj Hrun Hnew Hobj)
    as (d' & Hsel' & -> & _).
  assert (d' = d) as -> by congruence.
  exists (annotate (isoformat (clock w (ticks s + 2 * i))) d).
  split; [cbn [stored_object obj_data]; apply loads_dumps|].
  rewrite !annotate_get. cbn [String.eqb Ascii.eqb Bool.eqb].
  repeat split; try congruence.
  - apply annotate_keys_in_place.
  - intros k Ht Hu Ha. rewrite annotate_get.
    destruct (String.eqb_spec k "agent"); [contradiction|].
    destruct (String.eqb_spec k "source_url"); [contradiction|].
    destruct (String.eqb_spec k "harvest_timestamp"); [contradiction|].
    reflexivity.
Qed.

(** *** Errors *)

Lemma http_error_is_request_exception (r : Response) :
  is_request_exception (http_error r) = true.
Proof. reflexivity. Qed.


(** C9.  What the handler returns is a mapping and a code of one of two
    shapes: the success body, whose [status] is [success] and which carries
    the list of paths, with the code 200; or the error body, whose [status]
    is [error] and which carries a message, with the code 500. *)
Theorem returned_value_shape {Request : Type} (request : Request) (w : World)
    (s s' : State text) (body : json) (code : Z) :
  chronicle_harvester_agent json_dumps request w s = (Returned body code, s') ->
  ((exists files, body = success_body files /\ code = 200%Z) \/
   (exists message, body = error_body message /\ code = 500%Z)) /\
  (exists fields, body = JObj fields) /\
  (body_get "status" body = Some (JStr "success") \/
   body_get "status" body = Some (JStr "error")) /\
  (body_get "status" body = Some (JStr "success") <-> code = 200%Z) /\
  (body_get "status" body = Some (JStr "error") <-> code = 500%Z) /\
  (code = 200%Z ->
   exists files, body_get "uploaded_files" body = Some (JArr (map JStr files))) /\
  (code = 500%Z -> exists message, body_get "message" body = Some (JStr message)).
Proof.
  intros Hrun.
  destruct (agent_run request w s _ s' Hrun)
    as (ds & rest & _ & _ & _ & [(e & H & _) | [(e & H & _) | (H & _)]]);
    try discriminate; injection H as -> ->.
  - split; [right; eauto|]. split; [eexists; reflexivity|].
    cbn. repeat split; try (intros; discriminate); eauto.
  - split; [left; eauto|]. split; [eexists; reflexivity|].
    cbn. repeat split; try (intros; discriminate); eauto.
Qed.

(** The loop stops at the first item that is no mapping or that cannot be
    stored; what was stored before stays in the bucket. *)
Lemma harvest_entries_stops (c : Client) (w : World) (ds : list dict) (x : json)
    (rest : list json) (acc : list string) (s : State text) :
  (forall i, i < List.length ds -> ingest_fault w (uploads s + i) = None) ->
  (is_mapping x = false \/
   exists e, ingest_fault w (uploads s + List.length ds) = Some e) ->
  exists e s',
    harvest_entries json_dumps c (map JObj ds ++ x :: rest) acc w s = (inl e, s') /\
    (is_mapping x = false -> is_request_exception e = false) /\
    (is_mapping x = true -> ingest_fault w (uploads s + List.length ds) = Some e) /\
    bucket s' = bucket s ++ written w s ds.
Proof.
  intros Hok Hstop. rewrite harvest_entries_prefix by exact Hok.
  destruct (is_mapping x) eqn:Hx.
  - destruct Hstop as [? | (e & He)]; [discriminate|].
    destruct x; try discriminate. rewrite harvest_entries_mapping.
    destruct (after_counters w ds s) as (_ & _ & ->). rewrite He.
    eexists _, _. split; [reflexivity|]. split; [discriminate|].
    split; [reflexivity|]. cbn [bucket]. apply after_bucket.
  - destruct (harvest_entries_other x Hx) as (e & Hcls & He). rewrite He.
    eexists _, _. split; [reflexivity|]. split; [intros _; exact Hcls|].
    split; [discriminate|]. cbn [bucket]. apply after_bucket.
Qed.

Lemma forallb_mapping_dicts (ds : list dict) : forallb is_mapping (map JObj ds) = true.
Proof. induction ds; simpl; auto. Qed.

(** The loop cannot return when one of its items is no mapping. *)
Lemma harvest_entries_rejects (c : Client) (w : World) (entries : list json)
    (acc : list string) (s s' : State text) (r : exn + list string) :
  forallb is_mapping entries = false ->
  harvest_entries json_dumps c entries acc w s = (r, s') ->
  exists e, r = inl e.
Proof.
  intros Hbad Hrun. destruct r as [e|files]; [now exists e|].
  apply harvest_entries_run in Hrun.
  destruct Hrun as (ds & rest & -> & _ & _ & _ & -> & _).
  rewrite app_nil_r, forallb_mapping_dicts in Hbad. discriminate.
Qed.

Lemma rejected_selection (v : json) (selected : list json) :
  accepted_feed v = false -> slice_to 3 v = inr selected ->
  forallb is_mapping selected = false.
Proof.
  destruct v; try discriminate; cbn [slice_to accepted_feed].
  - destruct s as [|ch s]; [discriminate|]. intros _ H. injection H as <-. reflexivity.
  - intros Hb H. injection H as <-. exact Hb.
Qed.

(** C5.  When the [k]-th selected item cannot be annotated (it is no
    mapping) or cannot be stored (the bucket name is refused or the upload
    raises), after the [k] items before it were stored, the handler returns
    the code 500 and the mapping with [status] [error] and a [message], the
    text of that exception; the mapping has no path list, and the [k] objects
    stored before the failure are still in the bucket.  Conversely the
    handler returns the success status only when every selected item was
    stored, with one path per item. *)
Theorem failure_keeps_earlier_uploads {Request : Type} (request : Request) :
  (forall (w : World) (s : State text) (response : Response) (v : json)
          (ds : list dict) (x : json) (rest : list json),
     client_init w (GCP_PROJECT_ID w) = None ->
     http_get w MOCK_DATA_URL = inr response ->
     bad_status response = false ->
     json_result response = inr v ->
     slice_to 3 v = inr (map JObj ds ++ x :: rest) ->
     (forall i, i < List.length ds -> ingest_fault w (uploads s + i) = None) ->
     (is_mapping x = false \/
      exists e, ingest_fault w (uploads s + List.length ds) = Some e) ->
     exists e s',
       chronicle_harvester_agent json_dumps request w s =
         (Returned
            (JObj [("status", JStr "error"); ("message", JStr (error_message e))])
            500%Z, s') /\
       body_get "uploaded_files"
         (JObj [("status", JStr "error"); ("message", JStr (error_message e))]) =
         None /\
       (is_mapping x = false -> is_request_exception e = false) /\
       (is_mapping x = true ->
        ingest_fault w (uploads s + List.length ds) = Some e) /\
       bucket s' = bucket s ++ written w s ds /\
       List.length (written w s ds) = List.length ds) /\
  (forall (w : World) (s s' : State text) (body : json) (code : Z),
     chronicle_harvester_agent json_dumps request w s = (Returned body code, s') ->
     body_get "status" body = Some (JStr "success") ->
     exists ds,
       feed_selection w = map JObj ds /\
       bucket s' = bucket s ++ written w s ds /\
       List.length (written w s ds) = List.length (feed_selection w) /\
       body =
         JObj [("status", JStr "success");
               ("uploaded_files",
                JArr (map JStr (map obj_name (written w s ds))))] /\
       code = 200%Z).
Proof.
  split.
  - intros w s response v ds x rest Hc Hget Hstatus Hjson Hslice Hok Hstop.
    rewrite agent_eq, Hc. cbv zeta. rewrite harvest_eq, Hget, Hstatus, Hjson, Hslice.
    destruct (harvest_entries_stops (mk_client (GCP_PROJECT_ID w)) w ds x rest []
                (printed "Chronicle Harvester Agent: Initiating data collection..." s)
                Hok Hstop) as (e & s1 & -> & Hcls & Hfault & Hb).
    exists e. eexists. split; [reflexivity|]. split; [reflexivity|].
    split; [exact Hcls|]. split; [exact Hfault|].
    split; [exact Hb | apply length_objects].
  - intros w s s' body code Hrun Hstatus.
    destruct (agent_run request w s _ s' Hrun)
      as (ds & rest & Hb & _ & _ & [(e & H & _) | [(e & H & _) | (H & _ & Hsel & _)]]);
      try discriminate; injection H as -> ->; [discriminate|].
    exists ds. rewrite Hsel, length_objects, length_map. now repeat split.
Qed.

(** *** Object keys *)

Lemma ingest_data_entry_eq (entry_data : json) (client : Client) (w : World)
    (s : State text) :
  ingest_data_entry json_dumps entry_data client w s =
  match ingest_fault w (uploads s) with
  | Some e =>
      (inl e, mk_state (stdout s) (S (ticks s)) (S (draws s))
                (uploads_after w (uploads s)) (bucket s))
  | None =>
      (inr (file_name_of (isoformat (clock w (ticks s))) (entropy w (draws s))),
       mk_state
         (stdout s ++
          [("Uploaded " ++
            file_name_of (isoformat (clock w (ticks s))) (entropy w (draws s)) ++
            " to Cloud Storage.")%string])
         (S (ticks s)) (S (draws s)) (S (uploads s))
         (bucket s ++
          [mk_object (CLOUD_STORAGE_BUCKET w)
             (file_name_of (isoformat (clock w (ticks s))) (entropy w (draws s)))
             (json_dumps entry_data 2) "application/json"]))
  end.
Proof.
  destruct s as [out t r u b].
  unfold ingest_fault, uploads_after, bucket_error.
  cbv beta iota zeta delta
    [bind datetime_now lift ingest_data_entry uuid4 global upload_from_string
     client_bucket bucket_blob bucket_name blob_bucket blob_name
     print ret stdout ticks draws uploads bucket].
  destruct (validate_name (CLOUD_STORAGE_BUCKET w)) as [e|name] eqn:Hname;
    [reflexivity|].
  apply validate_name_inr in Hname. subst name.
  destruct (upload_fault w u); reflexivity.
Qed.

Lemma file_name_of_is_object_key (t : datetime) (u : N) :
  valid_datetime t -> is_object_key (file_name_of (isoformat t) u) = true.
Proof.
  intros Hv. pose proof (isoformat_shape t Hv) as H. unfold is_object_key.
  destruct (microsecond t =? 0)%N.
  - now rewrite (file_name_of_matches _ _ u H).
  - rewrite (file_name_of_matches _ _ u H). apply orb_true_r.
Qed.

(** C7.  The key [ingest_data_entry] builds has the form
    [raw_data/<ISO timestamp>-<8 lowercase hexadecimal characters>.json], and
    it is the name of the object the call writes.  Two keys built from
    different timestamps or from different random suffixes are different; so
    two runs of the handler whose random suffixes differ write objects under
    disjoint sets of keys. *)
Theorem object_keys_match_and_differ :
  (forall (entry_data : json) (client : Client) (w : World) (s s' : State text)
          (r : exn + string),
     ingest_data_entry json_dumps entry_data client w s = (r, s') ->
     valid_datetime (clock w (ticks s)) ->
     is_object_key
       (file_name_of (isoformat (clock w (ticks s))) (entropy w (draws s))) = true /\
     ((r = inr (file_name_of (isoformat (clock w (ticks s))) (entropy w (draws s))) /\
       exists obj,
         bucket s' = bucket s ++ [obj] /\
         obj_name obj =
           file_name_of (isoformat (clock w (ticks s))) (entropy w (draws s))) \/
      (exists e, r = inl e /\ bucket s' = bucket s))) /\
  (forall (timestamp1 timestamp2 : string) (u1 u2 : N),
     timestamp1 <> timestamp2 \/
     substring 0 8 (uuid_hex u1) <> substring 0 8 (uuid_hex u2) ->
     file_name_of timestamp1 u1 <> file_name_of timestamp2 u2) /\
  (forall (Request1 Request2 : Type) (request1 : Request1) (request2 : Request2)
          (w1 w2 : World) (s1 s1' s2 s2' : State text) (out1 out2 : Outcome)
          (new1 new2 : list (StoredObject text)),
     chronicle_harvester_agent json_dumps request1 w1 s1 = (out1, s1') ->
     bucket s1' = bucket s1 ++ new1 ->
     chronicle_harvester_agent json_dumps request2 w2 s2 = (out2, s2') ->
     bucket s2' = bucket s2 ++ new2 ->
     (forall i j, draws s1 <= i < draws s1' -> draws s2 <= j < draws s2' ->
        substring 0 8 (uuid_hex (entropy w1 i)) <>
        substring 0 8 (uuid_hex (entropy w2 j))) ->
     forall o1 o2, In o1 new1 -> In o2 new2 -> obj_name o1 <> obj_name o2).
Proof.
  split; [|split].
  - intros entry_data client w s s' r Hrun Hv.
    split; [now apply file_name_of_is_object_key|].
    rewrite ingest_data_entry_eq in Hrun.
    pose proof (f_equal fst Hrun) as Hr. pose proof (f_equal snd Hrun) as Hs.
    destruct (ingest_fault w (uploads s)) as [e|]; cbn [fst snd] in Hr, Hs;
      subst r s'; cbn [bucket].
    + right. exists e. split; reflexivity.
    + left. split; [reflexivity|]. eexists. split; reflexivity.
  - intros ts1 ts2 u1 u2 Hdiff Heq. apply file_name_of_inj in Heq. tauto.
  - intros R1 R2 request1 request2 w1 w2 s1 s1' s2 s2' out1 out2 new1 new2
      Hrun1 Hnew1 Hrun2 Hnew2 Hfresh o1 o2 Hin1 Hin2 Heq.
    apply In_nth_error in Hin1 as (i & Hi). apply In_nth_error in Hin2 as (j & Hj).
    destruct (stored_object_of_run request1 w1 s1 s1' out1 new1 i o1 Hrun1 Hnew1 Hi)
      as (d1 & _ & -> & Hd1).
    destruct (stored_object_of_run request2 w2 s2 s2' out2 new2 j o2 Hrun2 Hnew2 Hj)
      as (d2 & _ & -> & Hd2).
    cbn [stored_object obj_name] in Heq. apply file_name_of_inj in Heq.
    apply (Hfresh (draws s1 + i) (draws s2 + j)); [lia | lia | tauto].
Qed.

(** *** The request *)

Section Agreement.

(** Two worlds that give the handler the same answers: the same
    configuration, storage client, fetch response, clock readings, random
    suffixes and upload outcomes. *)
Variables w1 w2 : World.
Hypothesis same_project : GCP_PROJECT_ID w1 = GCP_PROJECT_ID w2.
Hypothesis same_bucket : CLOUD_STORAGE_BUCKET w1 = CLOUD_STORAGE_BUCKET w2.
Hypothesis same_client :
  client_init w1 (GCP_PROJECT_ID w1) = client_init w2 (GCP_PROJECT_ID w2).
Hypothesis same_fetch : http_get w1 MOCK_DATA_URL = http_get w2 MOCK_DATA_URL.
Hypothesis same_clock : forall n, clock w1 n = clock w2 n.
Hypothesis same_suffix :
  forall n,
    substring 0 8 (uuid_hex (entropy w1 n)) = substring 0 8 (uuid_hex (entropy w2 n)).
Hypothesis same_uploads : forall n, upload_fault w1 n = upload_fault w2 n.

Lemma stored_object_agree (t r : nat) (d : dict) :
  stored_object json_dumps w1 t r d = stored_object json_dumps w2 t r d.
Proof.
  unfold stored_object, file_name_of.
  now rewrite same_bucket, !same_clock, same_suffix.
Qed.

Lemma ingest_fault_agree (n : nat) :
  ingest_fault w1 n = ingest_fault w2 n /\ uploads_after w1 n = uploads_after w2 n.
Proof.
  unfold ingest_fault, uploads_after, bucket_error.
  rewrite same_bucket, same_uploads. split; reflexivity.
Qed.

Lemma harvest_entries_agree (c : Client) (entries : list json) :
  forall (acc : list string) (s : State text),
    harvest_entries json_dumps c entries acc w1 s =
    harvest_entries json_dumps c entries acc w2 s.
Proof.
  induction entries as [|x entries IH]; intros acc s; [reflexivity|].
  destruct (is_mapping x) eqn:Hx.
  - destruct x; try discriminate.
    rewrite !harvest_entries_mapping.
    destruct (ingest_fault_agree (uploads s)) as [-> ->].
    destruct (ingest_fault w2 (uploads s)); [reflexivity|].
    unfold harvested. rewrite stored_object_agree. apply IH.
  - destruct (harvest_entries_other x Hx) as (e & _ & He). now rewrite !He.
Qed.


End Agreement.

(** *** What the handler reads of the answer *)

Lemma harvest_entries_with_response (c : Client) (entries : list json)
    (acc : list string) (w : World) (r : Response) (s : State text) :
  harvest_entries json_dumps c entries acc (with_response w r) s =
  harvest_entries json_dumps c entries acc w s.
Proof. apply harvest_entries_agree; reflexivity. Qed.

(** The handler sees of the answer whether the status is 4xx or 5xx, then
    the error of that status, or else what the slice of the decoded body
    gives. *)
Lemma agent_same_answer {Request : Type} (request : Request) (w : World)
    (s : State text) (r r' : Response) :
  http_get w MOCK_DATA_URL = inr r ->
  bad_status r' = bad_status r ->
  (bad_status r = true -> http_error r' = http_error r) ->
  (bad_status r = false ->
   match json_result r' with inl e => inl e | inr v => slice_to 3 v end =
   match json_result r with inl e => inl e | inr v => slice_to 3 v end) ->
  chronicle_harvester_agent json_dumps request w s =
  chronicle_harvester_agent json_dumps request (with_response w r') s.
Proof.
  intros Hget Hbad Herr Hsel. rewrite !agent_eq. cbv zeta.
  change (GCP_PROJECT_ID (with_response w r')) with (GCP_PROJECT_ID w).
  change (client_init (with_response w r')) with (client_init w).
  destruct (client_init w (GCP_PROJECT_ID w)); [reflexivity|].
  rewrite !harvest_eq.
  change (http_get (with_response w r') MOCK_DATA_URL) with (@inr exn _ r').
  rewrite Hget. cbv beta iota. rewrite Hbad.
  destruct (bad_status r).
  - now rewrite Herr.
  - specialize (Hsel eq_refl).
    destruct (json_result r) as [e|v], (json_result r') as [e'|v'].
    + now injection Hsel as ->.
    + now rewrite Hsel.
    + now rewrite <- Hsel.
    + rewrite Hsel. destruct (slice_to 3 v) as [e|selected]; [reflexivity|].
      now rewrite harvest_entries_with_response.
Qed.

(** C4, amended.  When the fetch raises, or answers with a 4xx or 5xx
    status, the handler returns the mapping with [status] [error] and the
    message of that failure, with the code 500, and the bucket is as it was:
    no upload was attempted.  An answer with any other status is decoded and
    harvested like a 2xx one: the run is the one the same answer gives with
    a 2xx status. *)
Theorem failed_fetch_stores_nothing {Request : Type} (request : Request)
    (w : World) (s : State text) :
  (forall e,
     client_init w (GCP_PROJECT_ID w) = None ->
     (http_get w MOCK_DATA_URL = inl e \/
      exists response,
        http_get w MOCK_DATA_URL = inr response /\
        (400 <= status_code response < 600)%Z /\ e = http_error response) ->
     exists s',
       chronicle_harvester_agent json_dumps request w s =
         (Returned
            (JObj [("status", JStr "error"); ("message", JStr (error_message e))])
            500%Z, s') /\
       bucket s' = bucket s /\ uploads s' = uploads s) /\
  (forall response status,
     http_get w MOCK_DATA_URL = inr response ->
     (status_code response < 400 \/ 600 <= status_code response)%Z ->
     (200 <= status < 300)%Z ->
     chronicle_harvester_agent json_dumps request w s =
     chronicle_harvester_agent json_dumps request
       (with_response w (with_status response status)) s).
Proof.
  split.
  - intros e Hc Hfetch. rewrite agent_eq, Hc. cbv zeta. rewrite harvest_eq.
    destruct Hfetch as [-> | (response & -> & Hstatus & ->)].
    + eexists. repeat split.
    + assert (bad_status response = true) as ->
        by (unfold bad_status; apply andb_true_iff; split;
            [apply Z.leb_le | apply Z.ltb_lt]; lia).
      eexists. repeat split.
  - intros response status Hget Hstatus H2xx.
    assert (bad_status response = false) as Hgood
      by (unfold bad_status; apply andb_false_iff;
          destruct Hstatus; [left; apply Z.leb_gt | right; apply Z.ltb_ge]; lia).
    apply (agent_same_answer request w s response); [exact Hget | | | reflexivity].
    + rewrite Hgood. unfold bad_status, with_status. cbn [status_code].
      apply andb_false_iff. left. apply Z.leb_gt. lia.
    + rewrite Hgood. discriminate.
Qed.

(** C6, amended.  When the fetch succeeds and the body cannot be decoded, or
    decodes to a value the loop cannot annotate (anything but the empty
    string and an array whose first three items are mappings), the handler
    returns the mapping with [status] [error] and a message, with the code
    500.  Items after the third are never looked at: an array with other
    items, or none, after the same first three gives the same run. *)
Theorem unusable_feed_is_reported {Request : Type} (request : Request)
    (w : World) (s : State text) (response : Response) :
  http_get w MOCK_DATA_URL = inr response ->
  (client_init w (GCP_PROJECT_ID w) = None ->
   bad_status response = false ->
   ((exists e, json_result response = inl e) \/
    (exists v, json_result response = inr v /\ accepted_feed v = false)) ->
   exists e s',
     chronicle_harvester_agent json_dumps request w s =
       (Returned
          (JObj [("status", JStr "error"); ("message", JStr (error_message e))])
          500%Z, s') /\
     body_get "status"
       (JObj [("status", JStr "error"); ("message", JStr (error_message e))]) =
       Some (JStr "error")) /\
  (forall items items',
     json_result response = inr (JArr items) ->
     firstn 3 items' = firstn 3 items ->
     chronicle_harvester_agent json_dumps request w s =
     chronicle_harvester_agent json_dumps request
       (with_response w (with_body response (JArr items'))) s).
Proof.
  intros Hget. split.
  - intros Hc Hstatus Hfeed.
    rewrite agent_eq, Hc. cbv zeta. rewrite harvest_eq, Hget, Hstatus.
    destruct Hfeed as [(e & ->) | (v & -> & Hv)].
    + eexists _, _. split; reflexivity.
    + destruct (slice_to 3 v) as [e|selected] eqn:Hslice.
      * eexists _, _. split; reflexivity.
      * pose proof (rejected_selection v selected Hv Hslice) as Hbad.
        destruct (harvest_entries json_dumps _ selected [] w _) as [r s1] eqn:Hloop.
        destruct (harvest_entries_rejects _ w selected [] _ s1 r Hbad Hloop) as (e & ->).
        eexists _, _. split; reflexivity.
  - intros items items' Hjson Hitems.
    apply (agent_same_answer request w s response);
      [exact Hget | reflexivity | reflexivity |].
    intros _. rewrite Hjson. cbn [with_body json_result slice_to]. now rewrite Hitems.
Qed.


End Correctness.

(* ===================================================================== *)
(** ** The theorems at the sample worlds *)
(* ===================================================================== *)

Lemma sample_clock_valid (n : nat) : n < 1000 -> valid_datetime (sample_clock n).
Proof. intros Hn. unfold valid_datetime, sample_clock. cbn. lia. Qed.

(** The scenario of the specification: two posts, two objects, two paths. *)
Lemma harvest_stores_first_three_witness :
  exists ds s',
    firstn 3 two_posts = map JObj ds /\
    sample_run world_two_posts =
      (Returned
         (JObj [("status", JStr "success");
                ("uploaded_files",
                 JArr (map JStr
                         (map obj_name
                            (stored_objects tree_dumps world_two_posts 0 0 ds))))])
         200%Z, s') /\
    bucket s' = [] ++ stored_objects tree_dumps world_two_posts 0 0 ds /\
    List.length (stored_objects tree_dumps world_two_posts 0 0 ds) = 2 /\
    List.length (map obj_name (stored_objects tree_dumps world_two_posts 0 0 ds)) = 2 /\
    forall i d,
      i < 3 -> nth_error two_posts i = Some (JObj d) ->
      nth_error (stored_objects tree_dumps world_two_posts 0 0 ds) i =
        Some (stored_object tree_dumps world_two_posts (0 + 2 * i) (0 + i) d).
Proof.
  unfold sample_run.
  apply (harvest_stores_first_three json tree_dumps tt world_two_posts empty_state
           (sample_response 200 "OK" (inr (JArr two_posts))) two_posts).
  - reflexivity.
  - reflexivity.
  - reflexivity.
  - reflexivity.
  - repeat constructor.
  - intros i _. reflexivity.
Defined.

(** C1 as stated fails when an upload raises: the feed is an array of two
    mappings, yet the handler returns the error mapping with the code 500,
    and one object is stored, not two. *)
Lemma failed_upload_is_no_success :
  http_get world_second_upload_fails MOCK_DATA_URL =
    inr (sample_response 200 "OK" (inr (JArr two_posts))) /\
  forallb is_mapping two_posts = true /\
  Nat.min (List.length two_posts) 3 = 2 /\
  fst (sample_run world_second_upload_fails) =
    Returned
      (JObj [("status", JStr "error");
             ("message",
              JStr "An unexpected error occurred: 503 POST: Service Unavailable")])
      500%Z /\
  List.length (bucket (snd (sample_run world_second_upload_fails))) = 1.
Proof. repeat split; reflexivity. Qed.

(** The first post of the scenario has none of the injected keys. *)
Lemma stored_record_fields_witness :
  exists stored,
    tree_loads (obj_data (stored_object tree_dumps world_two_posts 0 0 first_post)) =
      Some (JObj stored) /\
    dict_keys stored =
      dict_keys first_post ++ ["harvest_timestamp"; "source_url"; "agent"] /\
    (forall k v, dict_get k first_post = Some v -> dict_get k stored = Some v) /\
    dict_get "harvest_timestamp" stored = Some (JStr "2025-06-23T14:05:09") /\
    is_isoformat "2025-06-23T14:05:09" = true /\
    dict_get "source_url" stored = Some (JStr MOCK_DATA_URL) /\
    dict_get "agent" stored = Some (JStr "ChronicleHarvester").
Proof.
  apply (stored_record_fields json tree_dumps tree_loads (fun v n => eq_refl) tt
           world_two_posts empty_state
           (snd (sample_run world_two_posts))
           (fst (sample_run world_two_posts))
           (bucket (snd (sample_run world_two_posts)))
           0 (stored_object tree_dumps world_two_posts 0 0 first_post) first_post);
    unfold sample_run.
  - apply surjective_pairing.
  - reflexivity.
  - reflexivity.
  - reflexivity.
  - reflexivity.
  - reflexivity.
  - reflexivity.
  - apply sample_clock_valid. simpl. lia.
Defined.

(** C2 as stated fails on a record that has an [agent] field of its own:
    the stored content holds the constant there, not the record's value, and
    has four fields, not the record's two and three more. *)
Lemma colliding_field_is_not_preserved :
  feed_selection world_colliding_key = [JObj colliding_post] /\
  dict_get "agent" colliding_post = Some (JStr "b") /\
  map (fun o => tree_loads (obj_data o))
    (bucket (snd (sample_run world_colliding_key))) =
    [Some (JObj [("id", JInt 2); ("agent", JStr "ChronicleHarvester");
                 ("harvest_timestamp", JStr "2025-06-23T14:05:09");
                 ("source_url", JStr MOCK_DATA_URL)])] /\
  dict_get "agent"
    [("id", JInt 2); ("agent", JStr "ChronicleHarvester");
     ("harvest_timestamp", JStr "2025-06-23T14:05:09");
     ("source_url", JStr MOCK_DATA_URL)] <> dict_get "agent" colliding_post.
Proof. repeat split; try reflexivity. discriminate. Qed.



(** A 503 answer is reported; a 300 answer is harvested as with 200. *)
Lemma failed_fetch_stores_nothing_witness :
  (exists s',
     sample_run world_status_503 =
       (Returned
          (JObj [("status", JStr "error");
                 ("message",
                  JStr (error_message
                          (http_error
                             (sample_response 503 "Service Unavailable"
                                (inr (JArr two_posts))))))])
          500%Z, s') /\
     bucket s' = bucket empty_state /\ uploads s' = uploads empty_state) /\
  sample_run world_status_300 =
    chronicle_harvester_agent tree_dumps tt
      (with_response world_status_300
         (with_status
            (sample_response 300 "Multiple Choices" (inr (JArr [JObj [("id", JInt 1)]])))
            200))
      empty_state.
Proof.
  unfold sample_run. split.
  - apply (proj1 (failed_fetch_stores_nothing json tree_dumps tt world_status_503
                    empty_state)).
    + reflexivity.
    + right. exists (sample_response 503 "Service Unavailable" (inr (JArr two_posts))).
      split; [reflexivity|]. split; [simpl; lia | reflexivity].
  - apply (proj2 (failed_fetch_stores_nothing json tree_dumps tt world_status_300
                    empty_state)).
    + reflexivity.
    + left. simpl. lia.
    + lia.
Defined.

(** C4 as stated fails for a status that is neither 2xx nor 4xx nor 5xx:
    the body of a 300 answer is harvested, and an object is stored. *)
Lemma status_300_is_harvested :
  http_get world_status_300 MOCK_DATA_URL =
    inr (sample_response 300 "Multiple Choices" (inr (JArr [JObj [("id", JInt 1)]]))) /\
  fst (sample_run world_status_300) =
    Returned (success_body ["raw_data/2025-06-23T14:05:09.000001-deadbeef.json"]) 200%Z /\
  List.length
    (bucket (snd (sample_run world_status_300))) = 1.
Proof. repeat split; reflexivity. Qed.

(** The second upload raises: the first object stays, the result is the
    error mapping with the text of that exception.  An empty bucket name:
    the first record is not stored, and the result is the error mapping. *)
Lemma failure_keeps_earlier_uploads_witness :
  (exists e s',
     sample_run world_second_upload_fails =
       (Returned
          (JObj [("status", JStr "error"); ("message", JStr (error_message e))])
          500%Z, s') /\
     body_get "uploaded_files"
       (JObj [("status", JStr "error"); ("message", JStr (error_message e))]) = None /\
     (is_mapping (JObj second_post) = false -> is_request_exception e = false) /\
     (is_mapping (JObj second_post) = true ->
      ingest_fault world_second_upload_fails (0 + 1) = Some e) /\
     bucket s' =
       bucket empty_state ++
       stored_objects tree_dumps world_second_upload_fails 0 0 [first_post] /\
     List.length (stored_objects tree_dumps world_second_upload_fails 0 0 [first_post]) =
       1) /\
  (exists e s',
     sample_run world_bucket_empty =
       (Returned
          (JObj [("status", JStr "error"); ("message", JStr (error_message e))])
          500%Z, s') /\
     body_get "uploaded_files"
       (JObj [("status", JStr "error"); ("message", JStr (error_message e))]) = None /\
     (is_mapping (JObj first_post) = false -> is_request_exception e = false) /\
     (is_mapping (JObj first_post) = true ->
      ingest_fault world_bucket_empty (0 + 0) = Some e) /\
     bucket s' = bucket empty_state ++ [] /\
     List.length (stored_objects tree_dumps world_bucket_empty 0 0 []) = 0).
Proof.
  unfold sample_run. split.
  - apply (proj1 (failure_keeps_earlier_uploads json tree_dumps tt)
             world_second_upload_fails empty_state
             (sample_response 200 "OK" (inr (JArr two_posts))) (JArr two_posts)
             [first_post] (JObj second_post) []).
    + reflexivity.
    + reflexivity.
    + reflexivity.
    + reflexivity.
    + reflexivity.
    + intros i Hi. assert (i = 0) as -> by (simpl in Hi; lia). reflexivity.
    + right. eexists. reflexivity.
  - apply (proj1 (failure_keeps_earlier_uploads json tree_dumps tt)
             world_bucket_empty empty_state
             (sample_response 200 "OK" (inr (JArr two_posts))) (JArr two_posts)
             [] (JObj first_post) [JObj second_post]).
    + reflexivity.
    + reflexivity.
    + reflexivity.
    + reflexivity.
    + reflexivity.
    + intros i Hi. simpl in Hi. lia.
    + right. exists (mk_exn IndexError "string index out of range"). reflexivity.
Defined.

(** A body that is no JSON and a feed whose second item is a number are
    reported; three mappings give the same run with a number after them and
    without. *)
Lemma unusable_feed_is_reported_witness :
  (exists e s',
     sample_run world_not_json =
       (Returned
          (JObj [("status", JStr "error"); ("message", JStr (error_message e))])
          500%Z, s') /\
     body_get "status"
       (JObj [("status", JStr "error"); ("message", JStr (error_message e))]) =
       Some (JStr "error")) /\
  (exists e s',
     sample_run world_second_item_number =
       (Returned
          (JObj [("status", JStr "error"); ("message", JStr (error_message e))])
          500%Z, s') /\
     body_get "status"
       (JObj [("status", JStr "error"); ("message", JStr (error_message e))]) =
       Some (JStr "error")) /\
  sample_run world_fourth_item_number =
    chronicle_harvester_agent tree_dumps tt
      (with_response world_fourth_item_number
         (with_body
            (sample_response 200 "OK"
               (inr (JArr [JObj []; JObj []; JObj []; JInt 1])))
            (JArr [JObj []; JObj []; JObj []])))
      empty_state.
Proof.
  unfold sample_run. split; [|split].
  - apply (proj1 (unusable_feed_is_reported json tree_dumps tt world_not_json
                    empty_state
                    (sample_response 200 "OK"
                       (inl (mk_exn RequestException
                               "Expecting value: line 1 column 1 (char 0)")))
                    eq_refl)).
    + reflexivity.
    + reflexivity.
    + left. eexists. reflexivity.
  - apply (proj1 (unusable_feed_is_reported json tree_dumps tt
                    world_second_item_number empty_state
                    (sample_response 200 "OK"
                       (inr (JArr [JObj [("id", JInt 1)]; JInt 1])))
                    eq_refl)).
    + reflexivity.
    + reflexivity.
    + right. eexists. split; reflexivity.
  - apply (proj2 (unusable_feed_is_reported json tree_dumps tt
                    world_fourth_item_number empty_state
                    (sample_response 200 "OK"
                       (inr (JArr [JObj []; JObj []; JObj []; JInt 1])))
                    eq_refl)
             [JObj []; JObj []; JObj []; JInt 1] [JObj []; JObj []; JObj []]).
    + reflexivity.
    + reflexivity.
Defined.

(** C6 as stated fails for an array that is not one of mappings when its
    first three items are: the fourth item is never looked at.  It fails
    too for the empty string, which is no array and has no item. *)
Lemma fourth_item_number_is_harvested :
  http_get world_fourth_item_number MOCK_DATA_URL =
    inr (sample_response 200 "OK" (inr (JArr [JObj []; JObj []; JObj []; JInt 1]))) /\
  forallb is_mapping [JObj []; JObj []; JObj []; JInt 1] = false /\
  fst (sample_run world_fourth_item_number) =
    Returned
      (success_body
         ["raw_data/2025-06-23T14:05:09.000001-deadbeef.json";
          "raw_data/2025-06-23T14:05:09.000003-deadbef0.json";
          "raw_data/2025-06-23T14:05:09.000005-deadbef1.json"]) 200%Z /\
  http_get world_empty_string MOCK_DATA_URL =
    inr (sample_response 200 "OK" (inr (JStr ""))) /\
  fst (sample_run world_empty_string) = Returned (success_body []) 200%Z.
Proof. repeat split; reflexivity. Qed.

(** The key of the first upload of the scenario. *)
Lemma object_keys_match_and_differ_witness :
  is_object_key "raw_data/2025-06-23T14:05:09-deadbeef.json" = true /\
  fst (ingest_data_entry tree_dumps (JObj first_post) (mk_client "nexusscout")
         world_two_posts empty_state) =
    inr "raw_data/2025-06-23T14:05:09-deadbeef.json".
Proof.
  destruct (proj1 (object_keys_match_and_differ json tree_dumps)
              (JObj first_post) (mk_client "nexusscout") world_two_posts empty_state
              (snd (ingest_data_entry tree_dumps (JObj first_post) (mk_client "nexusscout")
                      world_two_posts empty_state))
              (fst (ingest_data_entry tree_dumps (JObj first_post) (mk_client "nexusscout")
                      world_two_posts empty_state))
              (surjective_pairing _)
              (sample_clock_valid 0 ltac:(lia))) as [Hkey _].
  split; [exact Hkey | reflexivity].
Defined.


(** The result of the scenario. *)
Lemma returned_value_shape_witness :
  body_get "status"
    (success_body ["raw_data/2025-06-23T14:05:09.000001-deadbeef.json";
                   "raw_data/2025-06-23T14:05:09.000003-deadbef0.json"]) =
    Some (JStr "success") <-> 200%Z = 200%Z.
Proof.
  apply (returned_value_shape json tree_dumps tt world_two_posts empty_state
           (snd (sample_run world_two_posts))
           (success_body ["raw_data/2025-06-23T14:05:09.000001-deadbeef.json";
                          "raw_data/2025-06-23T14:05:09.000003-deadbef0.json"])
           200%Z).
  vm_compute. reflexivity.
Defined.

(** The record with an [agent] field of its own. *)
Lemma injected_keys_overwrite_witness :
  exists stored,
    tree_loads
      (obj_data (stored_object tree_dumps world_colliding_key 0 0 colliding_post)) =
      Some (JObj stored) /\
    dict_get "agent" colliding_post = Some (JStr "b") /\
    dict_get "agent" stored = Some (JStr "ChronicleHarvester") /\
    firstn 2 (dict_keys stored) = ["id"; "agent"] /\
    dict_get "id" stored = Some (JInt 2).
Proof.
  destruct (injected_keys_overwrite json tree_dumps tree_loads (fun v n => eq_refl) tt
              world_colliding_key empty_state
              (snd (chronicle_harvester_agent tree_dumps tt world_colliding_key
                      empty_state))
              (fst (chronicle_harvester_agent tree_dumps tt world_colliding_key
                      empty_state))
              (bucket (snd (chronicle_harvester_agent tree_dumps tt world_colliding_key
                              empty_state)))
              0 (stored_object tree_dumps world_colliding_key 0 0 colliding_post)
              colliding_post (surjective_pairing _) eq_refl eq_refl eq_refl)
    as (stored & Hload & _ & _ & Hagent & _ & _ & _ & Hkeys & Hother).
  exists stored. split; [exact Hload|]. split; [reflexivity|]. split; [exact Hagent|].
  split; [exact Hkeys|]. rewrite Hother by discriminate. reflexivity.
Defined.

(* ===================================================================== *)
(** ** Further properties of the handler *)
(* ===================================================================== *)

Section Coverage.

Variable text : Type.
Variable json_dumps : json -> nat -> text.
Variable json_loads : text -> option json.
Hypothesis loads_dumps : forall v n, json_loads (json_dumps v n) = Some v.

Local Abbreviation written w s ds :=
  (stored_objects json_dumps w (ticks s) (draws s) ds).
Local Abbreviation after w s ds := (harvested_all json_dumps w s ds).

(** *** The state a run leaves *)

Lemma after_stdout (w : World) (ds : list dict) :
  forall s : State text,
    stdout (after w s ds) = stdout s ++ map uploaded_line (written w s ds).
Proof.
  induction ds as [|d ds IH]; intros s; cbn [harvested_all stored_objects map].
  - now rewrite app_nil_r.
  - rewrite IH. cbn [harvested stdout ticks draws]. unfold uploaded_line at 2.
    now rewrite <- app_assoc.
Qed.

(** Where the loop stops, exactly: it returns in the state reached after
    storing every item, or it raises at the first item that is no mapping
    (after one more clock reading) or that cannot be stored (after two more
    clock readings and a UUID, and after the upload call when it is the
    upload that raises). *)
Lemma harvest_entries_trace (c : Client) (w : World) (entries : list json) :
  forall (acc : list string) (s : State text) r s',
    harvest_entries json_dumps c entries acc w s = (r, s') ->
    exists ds rest,
      entries = map JObj ds ++ rest /\
      stdout s' = stdout (after w s ds) /\
      bucket s' = bucket (after w s ds) /\
      match r with
      | inr files =>
          rest = [] /\ s' = after w s ds /\
          files = acc ++ map obj_name (written w s ds)
      | inl e =>
          exists x rest',
            rest = x :: rest' /\
            ((is_mapping x = false /\ is_request_exception e = false /\
              ticks s' = S (ticks (after w s ds)) /\
              draws s' = draws (after w s ds) /\
              uploads s' = uploads (after w s ds)) \/
             (is_mapping x = true /\
              ingest_fault w (uploads (after w s ds)) = Some e /\
              ticks s' = S (S (ticks (after w s ds))) /\
              draws s' = S (draws (after w s ds)) /\
              uploads s' = uploads_after w (uploads (after w s ds))))
      end.
Proof.
  induction entries as [|x entries IH]; intros acc s r s' Hrun.
  - simpl in Hrun. injection Hrun as <- <-. exists [], []. simpl.
    rewrite app_nil_r. repeat split.
  - destruct (is_mapping x) eqn:Hx.
    + destruct x; try discriminate. rename fields into d.
      rewrite harvest_entries_mapping in Hrun.
      destruct (ingest_fault w (uploads s)) as [e|] eqn:Hup.
      * injection Hrun as <- <-. exists [], (JObj d :: entries).
        cbn [map app harvested_all stdout bucket ticks draws uploads].
        repeat split. exists (JObj d), entries. split; [reflexivity|].
        right. repeat split. exact Hup.
      * apply IH in Hrun. destruct Hrun as (ds & rest & -> & Hout & Hb & Hr).
        exists (d :: ds), rest. cbn [map app harvested_all].
        split; [reflexivity|]. split; [exact Hout|]. split; [exact Hb|].
        destruct r as [e|files]; [exact Hr|].
        destruct Hr as (-> & -> & ->). repeat split.
        cbn [stored_objects map harvested ticks draws]. now rewrite <- app_assoc.
    + destruct (harvest_entries_other text json_dumps x Hx) as (e & He & Hstep).
      rewrite Hstep in Hrun. injection Hrun as <- <-.
      exists [], (x :: entries).
      cbn [map app harvested_all stdout bucket ticks draws uploads].
      repeat split. exists x, entries. split; [reflexivity|].
      left. repeat split; assumption.
Qed.

Lemma slice_to_length (v : json) (selected : list json) :
  slice_to 3 v = inr selected -> List.length selected <= 3.
Proof.
  destruct v; try discriminate; cbn [slice_to]; intros H.
  - assert (firstn 3 (chars s) = selected) as <- by congruence. apply firstn_le_length.
  - assert (firstn 3 items = selected) as <- by congruence. apply firstn_le_length.
Qed.

(** Every run, with what it leaves on standard output and how far it moves
    the counters. *)
Lemma agent_trace {Request : Type} (request : Request) (w : World)
    (s s' : State text) (out : Outcome) :
  chronicle_harvester_agent json_dumps request w s = (out, s') ->
  exists ds rest,
    (ds = [] \/ feed_selection w = map JObj ds ++ rest) /\
    List.length ds <= 3 /\
    bucket s' = bucket s ++ written w s ds /\
    ticks s + 2 * List.length ds <= ticks s' <= ticks s + 6 /\
    draws s + List.length ds <= draws s' <= draws s + 3 /\
    uploads s + List.length ds <= uploads s' <= uploads s + 3 /\
    match out with
    | Raised e =>
        ds = [] /\ client_init w (GCP_PROJECT_ID w) = Some e /\
        stdout s' = stdout s ++ [start_line]
    | Returned body code =>
        (code = 200%Z /\ rest = [] /\
         body = success_body (map obj_name (written w s ds)) /\
         stdout s' =
           stdout s ++ [start_line] ++ map uploaded_line (written w s ds) ++
           [success_line (List.length ds)]) \/
        (exists e,
           code = 500%Z /\ body = error_body (error_message e) /\
           stdout s' =
             stdout s ++ [start_line] ++ map uploaded_line (written w s ds) ++
             [failure_line (error_message e)])
    end.
Proof.
  rewrite agent_eq. cbv zeta.
  assert (forall e,
            bucket (printed (failure_line (error_message e)) (printed start_line s)) =
              bucket s ++ written w s [] /\
            ticks s + 2 * 0 <= ticks s <= ticks s + 6 /\
            draws s + 0 <= draws s <= draws s + 3 /\
            uploads s + 0 <= uploads s <= uploads s + 3 /\
            ((500%Z = 200%Z /\ @nil json = [] /\
              error_body (error_message e) =
                success_body (map obj_name (written w s [])) /\
              stdout (printed (failure_line (error_message e)) (printed start_line s)) =
                stdout s ++ [start_line] ++ map uploaded_line (written w s []) ++
                [success_line 0]) \/
             (exists e0,
                500%Z = 500%Z /\
                error_body (error_message e) = error_body (error_message e0) /\
                stdout (printed (failure_line (error_message e)) (printed start_line s)) =
                  stdout s ++ [start_line] ++ map uploaded_line (written w s []) ++
                  [failure_line (error_message e0)]))) as Early.
  { intros e. cbn [printed bucket stdout stored_objects map app].
    rewrite app_nil_r, <- app_assoc.
    repeat split; try lia. right. exists e. repeat split. }
  destruct (client_init w (GCP_PROJECT_ID w)) as [e|] eqn:Hclient.
  - intros H. injection H as <- <-. exists [], [].
    cbn [printed bucket stdout ticks draws uploads stored_objects List.length].
    repeat split; try lia; [now left | now rewrite app_nil_r].
  - rewrite harvest_eq. unfold feed_selection.
    destruct (http_get w MOCK_DATA_URL) as [e|response].
    { intros H. injection H as <- <-. exists [], [].
      split; [now left|]. split; [simpl; lia|]. apply Early. }
    destruct (bad_status response).
    { intros H. injection H as <- <-. exists [], [].
      split; [now left|]. split; [simpl; lia|]. apply Early. }
    destruct (json_result response) as [e|v].
    { intros H. injection H as <- <-. exists [], [].
      split; [now left|]. split; [simpl; lia|]. apply Early. }
    destruct (slice_to 3 v) as [e|selected] eqn:Hslice.
    { intros H. injection H as <- <-. exists [], [].
      split; [now left|]. split; [simpl; lia|]. apply Early. }
    clear Early. pose proof (slice_to_length v selected Hslice) as Hlen.
    destruct (harvest_entries json_dumps _ selected [] w _) as [[e|files] s1] eqn:Hloop;
      intros H; injection H as <- <-;
      apply harvest_entries_trace in Hloop;
      destruct Hloop as (ds & rest & -> & Hout & Hb & Hr);
      rewrite length_app, length_map in Hlen;
      destruct (after_counters text json_dumps w ds (printed start_line s))
        as (Ht & Hd & Hu);
      cbn [printed ticks draws uploads] in Ht, Hd, Hu;
      unfold start_line in Ht, Hd, Hu;
      exists ds, rest; unfold dict in *.
    + destruct Hr as (x & rest' & -> & Hx). cbn [List.length] in Hlen.
      cbn [printed bucket stdout ticks draws uploads].
      rewrite Hb, Hout, after_bucket, after_stdout.
      cbn [printed bucket stdout ticks draws].
      split; [now right|]. split; [lia|]. split; [reflexivity|].
      split; [destruct Hx as [(_ & _ & -> & _) | (_ & _ & -> & _)]; lia|].
      split; [destruct Hx as [(_ & _ & _ & -> & _) | (_ & _ & _ & -> & _)]; lia|].
      split; [destruct Hx as [(_ & _ & _ & _ & ->) | (_ & _ & _ & _ & ->)];
              [|pose proof (uploads_after_bounds w
                              (uploads (after w (printed start_line s) ds)))];
              unfold start_line in *; lia|].
      right. exists e. repeat split. now rewrite <- !app_assoc.
    + destruct Hr as (-> & -> & ->). rewrite app_nil_r in *.
      cbn [printed bucket stdout ticks draws uploads].
      rewrite after_bucket, after_stdout. cbn [printed bucket stdout ticks draws app].
      split; [now right|]. split; [lia|]. split; [reflexivity|].
      split; [lia|]. split; [lia|]. split; [lia|].
      left. repeat split.
      rewrite length_map, length_objects, <- !app_assoc. reflexivity.
Qed.

(** *** What a run costs and where it writes *)

(** X1.  Whatever the feed holds and however the run ends, it only adds to
    the bucket, at most three objects, with at most three upload calls, three
    UUIDs and six clock readings; every object added took one upload call. *)
Theorem run_is_bounded_and_append_only {Request : Type} (request : Request)
    (w : World) (s s' : State text) (out : Outcome) :
  chronicle_harvester_agent json_dumps request w s = (out, s') ->
  exists new,
    bucket s' = bucket s ++ new /\
    List.length new <= 3 /\
    uploads s + List.length new <= uploads s' <= uploads s + 3 /\
    draws s <= draws s' <= draws s + 3 /\
    ticks s <= ticks s' <= ticks s + 6.
Proof.
  intros Hrun.
  destruct (agent_trace request w s s' out Hrun)
    as (ds & rest & _ & Hlen & Hb & Ht & Hd & Hu & _).
  exists (written w s ds). rewrite length_objects. unfold dict in *.
  repeat split; try assumption; lia.
Qed.

(** X2.  Every object a run writes goes to the bucket named by the
    environment variable [CLOUD_STORAGE_BUCKET], or to the built-in name when
    the variable is not set, with the content type [application/json] and a
    body serialized with an indent of 2; and the storage client whose
    construction can end the run is the one for the project named by
    [GCP_PROJECT_ID], or [nexusscout] when that is not set. *)
Theorem configuration_decides_destination {Request : Type} (request : Request)
    (w : World) (s s' : State text) (out : Outcome)
    (new : list (StoredObject text)) :
  chronicle_harvester_agent json_dumps request w s = (out, s') ->
  bucket s' = bucket s ++ new ->
  (forall o, In o new ->
     obj_bucket o =
       match environ w "CLOUD_STORAGE_BUCKET" with
       | Some name => name
       | None => "nexusscout-raw-data-sriramo-23jun2025-1"
       end /\
     obj_content_type o = "application/json" /\
     exists record, obj_data o = json_dumps (JObj record) 2) /\
  (forall e, out = Raised e ->
     client_init w
       match environ w "GCP_PROJECT_ID" with
       | Some project => project
       | None => "nexusscout"
       end = Some e).
Proof.
  intros Hrun Hnew. split.
  - intros o Hin. apply In_nth_error in Hin as (i & Hi).
    destruct (stored_object_of_run text json_dumps request w s s' out new i o
                Hrun Hnew Hi) as (d & _ & -> & _).
    cbn [stored_object obj_bucket obj_content_type obj_data].
    repeat split. eexists. reflexivity.
  - intros e ->.
    destruct (agent_trace request w s s' _ Hrun) as (ds & rest & _ & _ & _ & _ & _ & _ & H).
    exact (proj1 (proj2 H)).
Qed.


Lemma app_self_nil {A : Type} (l l' : list A) : l = l ++ l' -> l' = [].
Proof.
  intros H. symmetry. apply (app_inv_head l). now rewrite app_nil_r.
Qed.

(** X11.  Nothing is stored unless every step up to the first upload goes
    through.  A run that adds an object to the bucket has built the storage
    client, got an answer whose status is not 4xx or 5xx, decoded it to a
    value whose slice starts with a mapping, had the bucket name accepted and
    its first upload did not raise.  So a failed fetch (a transport error, or
    a 4xx or 5xx answer whatever its body), a body that is no JSON, a value
    that cannot be sliced, an empty array, an array that starts with
    something else, a refused bucket name and a failing first upload all
    leave the bucket as it was. *)
Theorem nothing_stored_without_a_leading_mapping {Request : Type}
    (request : Request) (w : World) (s s' : State text) (out : Outcome)
    (new : list (StoredObject text)) :
  chronicle_harvester_agent json_dumps request w s = (out, s') ->
  bucket s' = bucket s ++ new ->
  new <> [] ->
  client_init w (GCP_PROJECT_ID w) = None /\
  exists response d rest,
    http_get w MOCK_DATA_URL = inr response /\
    bad_status response = false /\
    feed_selection w = JObj d :: rest /\
    validate_name (CLOUD_STORAGE_BUCKET w) = inr (CLOUD_STORAGE_BUCKET w) /\
    upload_fault w (uploads s) = None.
Proof.
  intros Hrun Hnew Hstored. rewrite agent_eq in Hrun. cbv zeta in Hrun.
  apply (f_equal snd) in Hrun. cbn [snd] in Hrun.
  assert (forall line1 line2,
            s' = printed line2 (printed line1 s) -> False) as Early2.
  { intros line1 line2 ->. cbn [printed bucket] in Hnew.
    now apply app_self_nil in Hnew. }
  destruct (client_init w (GCP_PROJECT_ID w)) as [e|].
  { exfalso. cbn [snd] in Hrun. subst s'. cbn [printed bucket] in Hnew.
    now apply app_self_nil in Hnew. }
  split; [reflexivity|].
  rewrite harvest_eq in Hrun. unfold feed_selection.
  destruct (http_get w MOCK_DATA_URL) as [e|response] eqn:Hget;
    [exfalso; cbn [snd] in Hrun; symmetry in Hrun; exact (Early2 _ _ Hrun)|].
  destruct (bad_status response) eqn:Hbad;
    [exfalso; cbn [snd] in Hrun; symmetry in Hrun; exact (Early2 _ _ Hrun)|].
  destruct (json_result response) as [e|v];
    [exfalso; cbn [snd] in Hrun; symmetry in Hrun; exact (Early2 _ _ Hrun)|].
  destruct (slice_to 3 v) as [e|selected];
    [exfalso; cbn [snd] in Hrun; symmetry in Hrun; exact (Early2 _ _ Hrun)|].
  destruct selected as [|x rest].
  { exfalso. cbn [harvest_entries ret snd] in Hrun. symmetry in Hrun.
    exact (Early2 _ _ Hrun). }
  destruct (is_mapping x) eqn:Hx.
  - destruct x; try discriminate. rename fields into d.
    exists response, d, rest. split; [reflexivity|]. split; [exact Hbad|].
    split; [reflexivity|].
    rewrite harvest_entries_mapping in Hrun.
    cbn [printed uploads] in Hrun. revert Hrun.
    unfold ingest_fault, bucket_error.
    destruct (validate_name (CLOUD_STORAGE_BUCKET w)) as [e|name] eqn:Hname.
    { intros Hrun. exfalso. cbn [snd printed] in Hrun. subst s'.
      cbn [bucket] in Hnew. now apply app_self_nil in Hnew. }
    apply validate_name_inr in Hname. subst name.
    destruct (upload_fault w (uploads s)) as [e|].
    { intros Hrun. exfalso. cbn [snd printed] in Hrun. subst s'.
      cbn [bucket] in Hnew. now apply app_self_nil in Hnew. }
    intros _. split; reflexivity.
  - exfalso. destruct (harvest_entries_other text json_dumps x Hx) as (e & _ & Hstep).
    rewrite Hstep in Hrun. cbn [snd printed] in Hrun. subst s'.
    cbn [bucket] in Hnew. now apply app_self_nil in Hnew.
Qed.

(** *** A bucket name the client refuses *)

Lemma validate_name_error (name : string) (e : exn) :
  validate_name name = inl e -> is_request_exception e = false.
Proof.
  destruct name as [|c rest]; cbn [validate_name].
  - intros H. injection H as <-. reflexivity.
  - destruct (isalnum c && isalnum (last_char c rest)); [discriminate|].
    intros H. injection H as <-. reflexivity.
Qed.

(** X13.  With a bucket name that [client.bucket] refuses (the empty name,
    a name that does not start and end with a letter or a digit), no run
    stores anything or calls an upload.  When the run reaches a first record
    it ends there: the handler returns the code 500 and the error mapping
    whose message is [An unexpected error occurred: ] and the text of the
    refusal. *)
Theorem refused_bucket_name_stores_nothing {Request : Type} (request : Request)
    (w : World) (s s' : State text) (out : Outcome) (e : exn) :
  validate_name (CLOUD_STORAGE_BUCKET w) = inl e ->
  chronicle_harvester_agent json_dumps request w s = (out, s') ->
  bucket s' = bucket s /\ uploads s' = uploads s /\
  (forall response d rest,
     client_init w (GCP_PROJECT_ID w) = None ->
     http_get w MOCK_DATA_URL = inr response ->
     bad_status response = false ->
     feed_selection w = JObj d :: rest ->
     out =
       Returned
         (JObj [("status", JStr "error");
                ("message",
                 JStr ("An unexpected error occurred: " ++ exn_str e)%string)])
         500%Z).
Proof.
  intros Hname Hrun.
  assert (forall n, ingest_fault w n = Some e) as Hfault
    by (intros n; unfold ingest_fault, bucket_error; now rewrite Hname).
  assert (forall n, uploads_after w n = n) as Hcalls
    by (intros n; unfold uploads_after, bucket_error; now rewrite Hname).
  pose proof (validate_name_error _ _ Hname) as Hcls.
  rewrite agent_eq in Hrun. cbv zeta in Hrun. unfold feed_selection.
  destruct (client_init w (GCP_PROJECT_ID w)) as [e0|].
  { apply (f_equal snd) in Hrun. cbn [snd] in Hrun. subst s'.
    repeat split. intros; discriminate. }
  rewrite harvest_eq in Hrun.
  destruct (http_get w MOCK_DATA_URL) as [e0|response].
  { apply (f_equal snd) in Hrun. cbn [snd] in Hrun. subst s'.
    repeat split. intros; discriminate. }
  destruct (bad_status response) eqn:Hbad.
  { apply (f_equal snd) in Hrun. cbn [snd] in Hrun. subst s'.
    repeat split. intros r d rest _ Hr Hgood _. injection Hr as <-. congruence. }
  destruct (json_result response) as [e0|v].
  { apply (f_equal snd) in Hrun. cbn [snd] in Hrun. subst s'.
    repeat split. intros; discriminate. }
  destruct (slice_to 3 v) as [e0|selected].
  { apply (f_equal snd) in Hrun. cbn [snd] in Hrun. subst s'.
    repeat split. intros; discriminate. }
  destruct selected as [|x rest].
  { apply (f_equal snd) in Hrun. cbn [harvest_entries ret snd] in Hrun. subst s'.
    repeat split. intros; discriminate. }
  destruct (is_mapping x) eqn:Hx.
  - destruct x; try discriminate. rename fields into d.
    rewrite harvest_entries_mapping, Hfault, Hcalls in Hrun.
    pose proof (f_equal fst Hrun) as Hout. apply (f_equal snd) in Hrun.
    cbn [fst snd] in Hout, Hrun. subst s' out. repeat split.
    intros _ _ _ _ _ _ _. unfold error_message. now rewrite Hcls.
  - destruct (harvest_entries_other text json_dumps x Hx) as (e0 & _ & Hstep).
    rewrite Hstep in Hrun. apply (f_equal snd) in Hrun. cbn [snd] in Hrun. subst s'.
    repeat split. intros response' d rest' _ H _ Hsel.
    injection Hsel as -> _. discriminate.
Qed.

End Coverage.

(* ===================================================================== *)
(** ** Timestamps and random suffixes in object keys *)
(* ===================================================================== *)

Section Keys.

Local Open Scope string_scope.

(** Two concatenations with heads of one length agree part by part. *)
Lemma append_inj_head (a c b d : string) :
  String.length a = String.length c -> a ++ b = c ++ d -> a = c /\ b = d.
Proof.
  revert c. induction a as [|x a IH]; intros [|y c] L H; simpl in L, H;
    try discriminate.
  - now split.
  - injection L as L. injection H as -> H. destruct (IH c L H) as [-> ->].
    now split.
Qed.

Lemma digits_value_zeros (k : nat) (s : string) :
  digits_value 0 (zeros k ++ s) = digits_value 0 s.
Proof.
  induction k as [|k IH]; [reflexivity|].
  cbn [zeros append digits_value].
  change (10 * 0 + (N_of_ascii "0" - 48))%N with 0%N. exact IH.
Qed.

(** Reading a padded number back gives the number. *)
Lemma zero_padded_value (width : nat) (n : N) :
  digits_value 0 (zero_padded width n) = n.
Proof.
  unfold zero_padded. cbv zeta. rewrite digits_value_zeros. apply decimal_value.
Qed.

Lemma zero_padded_inj (width : nat) (n m : N) :
  zero_padded width n = zero_padded width m -> n = m.
Proof.
  intros H. apply (f_equal (digits_value 0)) in H.
  now rewrite !zero_padded_value in H.
Qed.

Lemma zero_padded_length (width : nat) (n : N) :
  1 <= width -> (n < 10 ^ N.of_nat width)%N ->
  String.length (zero_padded width n) = width.
Proof.
  intros Hw Hn.
  rewrite (matches_length _ _ (zero_padded_matches width n Hw Hn)).
  apply repeat_length.
Qed.

Lemma iso_date_time_length (t : datetime) :
  valid_datetime t -> String.length (iso_date_time t) = 19.
Proof.
  intros Hv. now rewrite (matches_length _ _ (iso_date_time_matches t Hv)).
Qed.

Lemma iso_date_time_inj (t1 t2 : datetime) :
  valid_datetime t1 -> valid_datetime t2 ->
  iso_date_time t1 = iso_date_time t2 ->
  year t1 = year t2 /\ month t1 = month t2 /\ day t1 = day t2 /\
  hour t1 = hour t2 /\ minute t1 = minute t2 /\ second t1 = second t2.
Proof.
  intros (Hy1 & Hm1 & Hd1 & Hh1 & Hmi1 & Hs1 & _)
         (Hy2 & Hm2 & Hd2 & Hh2 & Hmi2 & Hs2 & _) H.
  unfold iso_date_time in H.
  apply append_inj_head in H;
    [|rewrite !zero_padded_length by (simpl; lia); reflexivity].
  destruct H as [Hy H]. cbn [append] in H. injection H as H.
  apply append_inj_head in H;
    [|rewrite !zero_padded_length by (simpl; lia); reflexivity].
  destruct H as [Hm H]. cbn [append] in H. injection H as H.
  apply append_inj_head in H;
    [|rewrite !zero_padded_length by (simpl; lia); reflexivity].
  destruct H as [Hd H]. cbn [append] in H. injection H as H.
  apply append_inj_head in H;
    [|rewrite !zero_padded_length by (simpl; lia); reflexivity].
  destruct H as [Hh H]. cbn [append] in H. injection H as H.
  apply append_inj_head in H;
    [|rewrite !zero_padded_length by (simpl; lia); reflexivity].
  destruct H as [Hmi H]. cbn [append] in H. injection H as H.
  repeat split; eapply zero_padded_inj; eassumption.
Qed.

Lemma isoformat_inj (t1 t2 : datetime) :
  valid_datetime t1 -> valid_datetime t2 -> isoformat t1 = isoformat t2 -> t1 = t2.
Proof.
  intros Hv1 Hv2 H. unfold isoformat in H.
  apply append_inj_head in H; [|now rewrite !iso_date_time_length].
  destruct H as [Hdt Hus].
  destruct (iso_date_time_inj t1 t2 Hv1 Hv2 Hdt) as (Hy & Hm & Hd & Hh & Hmi & Hs).
  assert (microsecond t1 = microsecond t2) as Hu.
  { destruct (N.eqb_spec (microsecond t1) 0) as [E1|E1],
             (N.eqb_spec (microsecond t2) 0) as [E2|E2];
      cbn [append] in Hus; try discriminate; [congruence|].
    injection Hus as Hus. now apply zero_padded_inj in Hus. }
  clear Hv1 Hv2 Hdt Hus.
  destruct t1, t2. cbn [year month day hour minute second microsecond] in *.
  now subst.
Qed.


(** *** The random suffix *)

Lemma nibble_high (u : N) (j : nat) :
  nibble u (24 + j) = nibble (N.shiftr u 96) j.
Proof. unfold nibble. rewrite N.shiftr_shiftr. do 2 f_equal. lia. Qed.

(** The first eight of the 32 hexadecimal digits are those of the top 32
    bits of the 128. *)
Lemma suffix_top_bits (u : N) :
  substring 0 8 (uuid_hex u) = hex_digits 8 (N.shiftr u 96).
Proof.
  unfold uuid_hex. cbn [hex_digits substring].
  rewrite <- !(nibble_high u). reflexivity.
Qed.

Lemma nibble_lt (n : N) (i : nat) : (nibble n i < 16)%N.
Proof.
  unfold nibble. change 15%N with (N.ones 4). rewrite N.land_ones.
  apply N.mod_lt. discriminate.
Qed.

Lemma nibble_div (n : N) (i : nat) :
  nibble n i = ((n / 16 ^ N.of_nat i) mod 16)%N.
Proof.
  unfold nibble. change 15%N with (N.ones 4).
  rewrite N.land_ones, N.shiftr_div_pow2, N.pow_mul_r. reflexivity.
Qed.

Lemma hex_char_inj (a b : N) :
  (a < 16)%N -> (b < 16)%N -> hex_char a = hex_char b -> a = b.
Proof.
  intros Ha Hb. rewrite <- (N2Nat.id a), <- (N2Nat.id b).
  assert (N.to_nat a < 16) as Hm by lia. assert (N.to_nat b < 16) as Hn by lia.
  revert Hm Hn. generalize (N.to_nat a) (N.to_nat b). clear a b Ha Hb.
  intros m n Hm Hn.
  do 16 (destruct m as [|m];
         [do 16 (destruct n as [|n];
                 [intros E; vm_compute in E; first [reflexivity | discriminate E]|]);
          exfalso; lia|]).
  exfalso; lia.
Qed.

Lemma hex_digits_nibbles (k : nat) (a b : N) :
  hex_digits k a = hex_digits k b ->
  forall j, j < k -> nibble a j = nibble b j.
Proof.
  induction k as [|k IH]; intros H j Hj; [lia|].
  cbn [hex_digits] in H. injection H as Hc H.
  destruct (Nat.eq_dec j k) as [->|Hne].
  - apply hex_char_inj; [apply nibble_lt | apply nibble_lt | exact Hc].
  - apply IH; [exact H | lia].
Qed.

(** A number is its hexadecimal digits: two numbers with the same [k] low
    digits and the same rest are equal. *)
Lemma nibbles_inj (k : nat) (a b : N) :
  (forall j, j < k -> nibble a j = nibble b j) ->
  (a / 16 ^ N.of_nat k = b / 16 ^ N.of_nat k)%N -> a = b.
Proof.
  induction k as [|k IH]; intros Hn Hrest.
  - change (16 ^ N.of_nat 0)%N with 1%N in Hrest. now rewrite !N.div_1_r in Hrest.
  - apply IH; [intros j Hj; apply Hn; lia|].
    pose proof (Hn k (Nat.lt_succ_diag_r k)) as Hk. rewrite !nibble_div in Hk.
    rewrite Nat2N.inj_succ, N.pow_succ_r', N.mul_comm, <- !N.Div0.div_div in Hrest.
    rewrite (N.div_mod (a / 16 ^ N.of_nat k) 16) by discriminate.
    rewrite (N.div_mod (b / 16 ^ N.of_nat k) 16) by discriminate.
    now rewrite Hk, Hrest.
Qed.

Lemma hex_digits_inj (a b : N) :
  (a < 2 ^ 32)%N -> (b < 2 ^ 32)%N -> hex_digits 8 a = hex_digits 8 b -> a = b.
Proof.
  intros Ha Hb H. apply (nibbles_inj 8); [now apply hex_digits_nibbles|].
  change (16 ^ N.of_nat 8)%N with (2 ^ 32)%N. now rewrite !N.div_small.
Qed.

Lemma top_bits_lt (u : N) : (u < 2 ^ 128)%N -> (N.shiftr u 96 < 2 ^ 32)%N.
Proof.
  intros H. rewrite N.shiftr_div_pow2.
  apply N.Div0.div_lt_upper_bound.
  now change (2 ^ 96 * 2 ^ 32)%N with (2 ^ 128)%N.
Qed.

(** X5.  The key uses 32 of the 128 bits of the UUID: the suffix
    [uuid4().hex[:8]] spells the top 32 bits, so two objects written at one
    instant get the same key exactly when their UUIDs agree on those bits,
    whatever the other 96 are. *)
Theorem key_uses_top_32_bits_of_uuid (timestamp : string) (u1 u2 : N) :
  (u1 < 2 ^ 128)%N -> (u2 < 2 ^ 128)%N ->
  (file_name_of timestamp u1 = file_name_of timestamp u2 <->
   N.shiftr u1 96 = N.shiftr u2 96).
Proof.
  intros H1 H2. split.
  - intros H. apply file_name_of_inj in H. destruct H as [_ H].
    rewrite !suffix_top_bits in H.
    apply hex_digits_inj; [now apply top_bits_lt | now apply top_bits_lt | exact H].
  - intros H. unfold file_name_of. now rewrite !suffix_top_bits, H.
Qed.

End Keys.

(* ===================================================================== *)
(** ** One call, one response, several runs *)
(* ===================================================================== *)

Section Runs.

Variable text : Type.
Variable json_dumps : json -> nat -> text.
Variable json_loads : text -> option json.
Hypothesis loads_dumps : forall v n, json_loads (json_dumps v n) = Some v.

Local Abbreviation written w s ds :=
  (stored_objects json_dumps w (ticks s) (draws s) ds).

(** X6.  What [ingest_data_entry] does with any entry.  It reads the clock
    once and draws one UUID; then the bucket handle checks the configured
    name (not empty, a letter or a digit at both ends), and only when the
    name passes is the upload called, once.  When the upload goes through,
    the function has added one object to the configured bucket, under the
    key it returns and prints, typed [application/json], whose content
    decodes to the very entry it was given.  When the name is refused or the
    upload raises, that exception leaves the function: nothing is stored and
    nothing is printed. *)
Theorem ingest_stores_the_entry_it_is_given (entry_data : json) (client : Client)
    (w : World) (s s' : State text) (r : exn + string) :
  ingest_data_entry json_dumps entry_data client w s = (r, s') ->
  ticks s' = S (ticks s) /\ draws s' = S (draws s) /\
  match r with
  | inr file_name =>
      validate_name (CLOUD_STORAGE_BUCKET w) = inr (CLOUD_STORAGE_BUCKET w) /\
      upload_fault w (uploads s) = None /\
      uploads s' = S (uploads s) /\
      exists o,
        bucket s' = bucket s ++ [o] /\
        obj_name o = file_name /\
        obj_bucket o = CLOUD_STORAGE_BUCKET w /\
        obj_content_type o = "application/json" /\
        json_loads (obj_data o) = Some entry_data /\
        stdout s' = stdout s ++ [uploaded_line o]
  | inl e =>
      bucket s' = bucket s /\ stdout s' = stdout s /\
      ((validate_name (CLOUD_STORAGE_BUCKET w) = inl e /\
        uploads s' = uploads s) \/
       (validate_name (CLOUD_STORAGE_BUCKET w) = inr (CLOUD_STORAGE_BUCKET w) /\
        upload_fault w (uploads s) = Some e /\
        uploads s' = S (uploads s)))
  end.
Proof.
  intros Hrun. rewrite ingest_data_entry_eq in Hrun.
  pose proof (f_equal fst Hrun) as Hr. pose proof (f_equal snd Hrun) as Hs.
  clear Hrun. revert Hr Hs. unfold ingest_fault, uploads_after, bucket_error.
  destruct (validate_name (CLOUD_STORAGE_BUCKET w)) as [e|name] eqn:Hname.
  - cbn [fst snd]. intros <- <-. cbn [ticks draws uploads bucket stdout].
    repeat split. left. now split.
  - apply validate_name_inr in Hname. subst name.
    destruct (upload_fault w (uploads s)) as [e|]; cbn [fst snd]; intros <- <-;
      cbn [ticks draws uploads bucket stdout].
    + repeat split. right. now repeat split.
    + repeat split. eexists. split; [reflexivity|].
      cbn [obj_name obj_bucket obj_content_type obj_data].
      rewrite loads_dumps. repeat split.
Qed.

(** X7.  Of the response, the handler uses whether the status is 4xx or 5xx
    and the first three items of the decoded array, nothing else: two
    answers of the endpoint with any statuses outside 400..599, any reasons
    and URLs, and arrays that agree on their first three items, give the same
    run (the same result, the same objects, the same log). *)
Theorem only_status_class_and_first_three_items_matter {Request : Type}
    (request : Request) (w : World) (s : State text) (r1 r2 : Response)
    (items1 items2 : list json) :
  bad_status r1 = false -> bad_status r2 = false ->
  json_result r1 = inr (JArr items1) -> json_result r2 = inr (JArr items2) ->
  firstn 3 items1 = firstn 3 items2 ->
  chronicle_harvester_agent json_dumps request (with_response w r1) s =
  chronicle_harvester_agent json_dumps request (with_response w r2) s.
Proof.
  intros Hs1 Hs2 Hj1 Hj2 Hitems. rewrite !agent_eq. cbv zeta.
  change (GCP_PROJECT_ID (with_response w r1)) with (GCP_PROJECT_ID w).
  change (GCP_PROJECT_ID (with_response w r2)) with (GCP_PROJECT_ID w).
  change (client_init (with_response w r1)) with (client_init w).
  change (client_init (with_response w r2)) with (client_init w).
  destruct (client_init w (GCP_PROJECT_ID w)); [reflexivity|].
  rewrite !harvest_eq.
  change (http_get (with_response w r1) MOCK_DATA_URL) with (@inr exn _ r1).
  change (http_get (with_response w r2) MOCK_DATA_URL) with (@inr exn _ r2).
  cbv beta iota. rewrite Hs1, Hs2, Hj1, Hj2. cbn [slice_to]. rewrite Hitems.
  rewrite (harvest_entries_agree text json_dumps (with_response w r1)
             (with_response w r2)); reflexivity.
Qed.

(** *** Keys under a clock that never repeats *)

(** The key of every object of a batch is built from one of the batch's own
    clock readings, the second of its iteration. *)
Lemma objects_names (w : World) (ds : list dict) (t r : nat) (name : string) :
  In name (map obj_name (stored_objects json_dumps w t r ds)) ->
  exists i u,
    i < List.length ds /\
    name = file_name_of (isoformat (clock w (S (t + 2 * i)))) u.
Proof.
  intros Hin. apply in_map_iff in Hin as (o & <- & Hin).
  apply In_nth_error in Hin as (i & Hi).
  destruct (nth_error_objects_inv text json_dumps w ds t r i o Hi) as (d & Hd & ->).
  exists i, (entropy w (r + i)). split; [|reflexivity].
  apply nth_error_Some. now rewrite Hd.
Qed.

Section FreshClock.

(** The readings numbered from [lo] up to [hi], the latter excluded, are
    valid instants and differ from each other. *)
Variable w : World.
Variables lo hi : nat.
Hypothesis clock_valid : forall n, lo <= n < hi -> valid_datetime (clock w n).
Hypothesis clock_fresh :
  forall m n, lo <= m < hi -> lo <= n < hi -> clock w m = clock w n -> m = n.

Lemma file_name_of_clock (m n : nat) (u1 u2 : N) :
  lo <= m < hi -> lo <= n < hi ->
  file_name_of (isoformat (clock w m)) u1 = file_name_of (isoformat (clock w n)) u2 ->
  m = n.
Proof.
  intros Hm Hn H. apply file_name_of_inj in H. destruct H as [H _].
  apply clock_fresh; [exact Hm | exact Hn |].
  apply isoformat_inj; [now apply clock_valid | now apply clock_valid | exact H].
Qed.

Lemma NoDup_objects (ds : list dict) :
  forall t r,
    lo <= t -> t + 2 * List.length ds <= hi ->
    NoDup (map obj_name (stored_objects json_dumps w t r ds)).
Proof.
  induction ds as [|d ds IH]; intros t r Hlo Hhi; cbn [stored_objects map].
  - constructor.
  - cbn [List.length] in Hhi. constructor; [|apply IH; lia].
    intros Hin. apply objects_names in Hin as (i & u & Hi & Hname).
    cbn [stored_object obj_name] in Hname.
    apply file_name_of_clock in Hname; lia.
Qed.

Lemma objects_disjoint (ds1 ds2 : list dict) (t1 r1 t2 r2 : nat) (name : string) :
  lo <= t1 -> t1 + 2 * List.length ds1 <= t2 -> t2 + 2 * List.length ds2 <= hi ->
  In name (map obj_name (stored_objects json_dumps w t1 r1 ds1)) ->
  ~ In name (map obj_name (stored_objects json_dumps w t2 r2 ds2)).
Proof.
  intros Hlo Hle Hhi Hin1 Hin2.
  apply objects_names in Hin1 as (i & u & Hi & ->).
  apply objects_names in Hin2 as (j & v & Hj & Hname).
  apply file_name_of_clock in Hname; lia.
Qed.

End FreshClock.

(** X8.  While the clock gives valid readings and never one reading twice,
    no key is used twice: the objects of a run, and those of any later run,
    all have different names, whatever the random suffixes are (equal ones
    included).  Only the readings from the start of the first run to the end
    of the second are concerned. *)
Theorem fresh_clock_gives_fresh_keys {Request1 Request2 : Type}
    (request1 : Request1) (request2 : Request2) (w : World)
    (s1 s1' s2 s2' : State text) (out1 out2 : Outcome)
    (new1 new2 : list (StoredObject text)) :
  (forall n, ticks s1 <= n < ticks s2' -> valid_datetime (clock w n)) ->
  (forall m n,
     ticks s1 <= m < ticks s2' -> ticks s1 <= n < ticks s2' ->
     clock w m = clock w n -> m = n) ->
  chronicle_harvester_agent json_dumps request1 w s1 = (out1, s1') ->
  bucket s1' = bucket s1 ++ new1 ->
  chronicle_harvester_agent json_dumps request2 w s2 = (out2, s2') ->
  bucket s2' = bucket s2 ++ new2 ->
  ticks s1' <= ticks s2 ->
  NoDup (map obj_name (new1 ++ new2)).
Proof.
  intros Hvalid Hfresh Hrun1 Hnew1 Hrun2 Hnew2 Hlater.
  destruct (agent_trace text json_dumps request1 w s1 s1' out1 Hrun1)
    as (ds1 & rest1 & _ & _ & Hb1 & Ht1 & _).
  destruct (agent_trace text json_dumps request2 w s2 s2' out2 Hrun2)
    as (ds2 & rest2 & _ & _ & Hb2 & Ht2 & _).
  rewrite Hb1 in Hnew1. apply app_inv_head in Hnew1. subst new1.
  rewrite Hb2 in Hnew2. apply app_inv_head in Hnew2. subst new2.
  unfold dict in *. rewrite map_app. apply NoDup_app.
  - apply (NoDup_objects w (ticks s1) (ticks s2') Hvalid Hfresh); unfold dict; lia.
  - apply (NoDup_objects w (ticks s1) (ticks s2') Hvalid Hfresh); unfold dict; lia.
  - intros name.
    apply (objects_disjoint w (ticks s1) (ticks s2') Hvalid Hfresh);
      unfold dict; lia.
Qed.

(** *** Running again *)

(** X9.  The handler keeps no memory of what it harvested: a second
    successful run over the same feed stores every selected record again,
    under new keys, next to the objects of the first run.  After the two runs
    the bucket holds two objects per selected item. *)
Theorem second_run_stores_the_feed_again {Request1 Request2 : Type}
    (request1 : Request1) (request2 : Request2) (w : World)
    (s s1 s2 : State text) (body1 body2 : json) :
  chronicle_harvester_agent json_dumps request1 w s = (Returned body1 200%Z, s1) ->
  chronicle_harvester_agent json_dumps request2 w s1 = (Returned body2 200%Z, s2) ->
  exists ds,
    feed_selection w = map JObj ds /\
    bucket s2 = bucket s ++ written w s ds ++ written w s1 ds /\
    List.length (bucket s2) =
      List.length (bucket s) + 2 * List.length (feed_selection w).
Proof.
  intros Hrun1 Hrun2.
  destruct (agent_run text json_dumps request1 w s _ s1 Hrun1)
    as (ds & rest & Hb1 & _ & _ & [(e & H & _) | [(e & H & _) | (_ & _ & Hsel & _)]]);
    try discriminate H.
  destruct (agent_run text json_dumps request2 w s1 _ s2 Hrun2)
    as (ds' & rest' & Hb2 & _ & _ & [(e & H & _) | [(e & H & _) | (_ & _ & Hsel' & _)]]);
    try discriminate H.
  assert (ds' = ds) as ->.
  { rewrite Hsel in Hsel'. clear - Hsel'. revert ds' Hsel'.
    induction ds as [|d ds IH]; intros [|d' ds'] H; simpl in H; try discriminate.
    - reflexivity.
    - injection H as -> H. f_equal. now apply IH. }
  exists ds. split; [exact Hsel|]. split.
  - now rewrite Hb2, Hb1, <- app_assoc.
  - rewrite Hb2, Hb1, !length_app, !length_objects, Hsel, length_map.
    unfold dict. lia.
Qed.

(** *** The two timestamps of an object *)

(** X12.  The time in an object's key is not the time in its content.  The
    loop reads the clock for [harvest_timestamp], then [ingest_data_entry]
    reads it again for the key: the [i]-th object of a run holds the reading
    numbered [2 * i] in its content and the next one in its name.  When the
    clock has moved between the two, the key is not the one the stored
    timestamp would give, whatever the suffix. *)
Theorem key_time_is_read_after_harvest_time {Request : Type} (request : Request)
    (w : World) (s s' : State text) (out : Outcome)
    (new : list (StoredObject text)) (i : nat) (o : StoredObject text) :
  chronicle_harvester_agent json_dumps request w s = (out, s') ->
  bucket s' = bucket s ++ new ->
  nth_error new i = Some o ->
  exists stored u,
    json_loads (obj_data o) = Some (JObj stored) /\
    dict_get "harvest_timestamp" stored =
      Some (JStr (isoformat (clock w (ticks s + 2 * i)))) /\
    obj_name o = file_name_of (isoformat (clock w (S (ticks s + 2 * i)))) u /\
    (valid_datetime (clock w (ticks s + 2 * i)) ->
     valid_datetime (clock w (S (ticks s + 2 * i))) ->
     clock w (ticks s + 2 * i) <> clock w (S (ticks s + 2 * i)) ->
     forall u',
       obj_name o <> file_name_of (isoformat (clock w (ticks s + 2 * i))) u').
Proof.
  intros Hrun Hnew Hi.
  destruct (stored_object_of_run text json_dumps request w s s' out new i o
              Hrun Hnew Hi) as (d & _ & -> & _).
  cbn [stored_object obj_name obj_data].
  exists (annotate (isoformat (clock w (ticks s + 2 * i))) d),
         (entropy w (draws s + i)).
  split; [apply loads_dumps|]. split; [now rewrite annotate_get|].
  split; [reflexivity|].
  intros Hv1 Hv2 Hmoved u' H. apply file_name_of_inj in H. destruct H as [H _].
  apply Hmoved. symmetry. now apply isoformat_inj.
Qed.

End Runs.

(* ===================================================================== *)
(** ** Annotating a record twice *)
(* ===================================================================== *)

Lemma dict_set_absorb (k : string) (v v' : json) (d : dict) :
  dict_set k v (dict_set k v' d) = dict_set k v d.
Proof.
  induction d as [|[k0 v0] d IH]; simpl.
  - now rewrite String.eqb_refl.
  - destruct (k0 =? k)%string eqn:E; simpl; rewrite E; [reflexivity | now rewrite IH].
Qed.

(** Two assignments to different keys commute when the later key is already
    there (a new key would be appended, after or before the other). *)
Lemma dict_set_comm (k k' : string) (v v' : json) (d : dict) :
  k <> k' -> dict_has k d = true ->
  dict_set k v (dict_set k' v' d) = dict_set k' v' (dict_set k v d).
Proof.
  intros Hne. unfold dict_has.
  induction d as [|[k0 v0] d IH]; simpl; [discriminate|].
  destruct (String.eqb_spec k0 k) as [->|Hk].
  - intros _. destruct (String.eqb_spec k k') as [?|_]; [contradiction|].
    simpl. rewrite String.eqb_refl.
    destruct (String.eqb_spec k k') as [?|_]; [contradiction | reflexivity].
  - intros Hhas. destruct (String.eqb_spec k0 k') as [->|Hk'].
    + simpl. destruct (String.eqb_spec k' k) as [?|_]; [congruence|].
      now rewrite String.eqb_refl.
    + simpl. destruct (String.eqb_spec k0 k) as [?|_]; [contradiction|].
      destruct (String.eqb_spec k0 k') as [?|_]; [contradiction|].
      now rewrite IH.
Qed.

(** X10.  The three assignments refresh, they do not pile up: a record that
    already went through them (a stored object served again by the feed)
    comes out of a second pass as the original record would, with the new
    capture time and no trace of the old one, the same keys at the same
    places. *)
Theorem annotating_again_refreshes (timestamp1 timestamp2 : string) (d : dict) :
  annotate timestamp2 (annotate timestamp1 d) = annotate timestamp2 d /\
  dict_keys (annotate timestamp2 (annotate timestamp1 d)) =
    dict_keys (annotate timestamp1 d).
Proof.
  assert (annotate timestamp2 (annotate timestamp1 d) = annotate timestamp2 d) as E.
  { unfold annotate.
    rewrite (dict_set_comm "harvest_timestamp" "agent")
      by (try discriminate; now rewrite !dict_has_set).
    rewrite (dict_set_comm "harvest_timestamp" "source_url")
      by (try discriminate; now rewrite !dict_has_set).
    rewrite dict_set_absorb.
    rewrite (dict_set_comm "source_url" "agent")
      by (try discriminate; now rewrite !dict_has_set).
    now rewrite !dict_set_absorb. }
  split; [exact E|].
  rewrite E, !annotate_keys. reflexivity.
Qed.

(* ===================================================================== *)
(** ** The further properties at the sample worlds *)
(* ===================================================================== *)

(** Five items in the feed, three objects in the bucket. *)
Lemma run_is_bounded_and_append_only_witness :
  exists new,
    bucket (snd (sample_run world_five_posts)) = bucket empty_state ++ new /\
    List.length new <= 3 /\
    uploads empty_state + List.length new
      <= uploads (snd (sample_run world_five_posts)) <= uploads empty_state + 3 /\
    draws empty_state
      <= draws (snd (sample_run world_five_posts)) <= draws empty_state + 3 /\
    ticks empty_state
      <= ticks (snd (sample_run world_five_posts)) <= ticks empty_state + 6.
Proof.
  unfold sample_run.
  apply (run_is_bounded_and_append_only json tree_dumps tt world_five_posts
           empty_state
           (snd (chronicle_harvester_agent tree_dumps tt world_five_posts empty_state))
           (fst (chronicle_harvester_agent tree_dumps tt world_five_posts empty_state))).
  apply surjective_pairing.
Defined.

(** Both variables set: the objects go to [harvest-test], the client is
    asked for [scout-test]. *)
Lemma configuration_decides_destination_witness :
  (forall o,
     In o (bucket (snd (sample_run world_configured))) ->
     obj_bucket o = "harvest-test" /\
     obj_content_type o = "application/json" /\
     exists record, obj_data o = tree_dumps (JObj record) 2) /\
  (forall e,
     fst (sample_run world_configured) = Raised e ->
     client_init world_configured "scout-test" = Some e).
Proof.
  unfold sample_run.
  apply (configuration_decides_destination json tree_dumps tt world_configured
           empty_state
           (snd (chronicle_harvester_agent tree_dumps tt world_configured empty_state))
           (fst (chronicle_harvester_agent tree_dumps tt world_configured empty_state))
           (bucket
              (snd (chronicle_harvester_agent tree_dumps tt world_configured
                      empty_state)))).
  - apply surjective_pairing.
  - reflexivity.
Defined.


(** The run over the two posts stored something: every step went through. *)
Lemma nothing_stored_without_a_leading_mapping_witness :
  client_init world_two_posts (GCP_PROJECT_ID world_two_posts) = None /\
  exists response d rest,
    http_get world_two_posts MOCK_DATA_URL = inr response /\
    bad_status response = false /\
    feed_selection world_two_posts = JObj d :: rest /\
    validate_name (CLOUD_STORAGE_BUCKET world_two_posts) =
      inr (CLOUD_STORAGE_BUCKET world_two_posts) /\
    upload_fault world_two_posts (uploads empty_state) = None.
Proof.
  apply (nothing_stored_without_a_leading_mapping json tree_dumps tt
           world_two_posts empty_state
           (snd (chronicle_harvester_agent tree_dumps tt world_two_posts empty_state))
           (fst (chronicle_harvester_agent tree_dumps tt world_two_posts empty_state))
           (bucket
              (snd (chronicle_harvester_agent tree_dumps tt world_two_posts
                      empty_state)))).
  - apply surjective_pairing.
  - reflexivity.
  - intros H. vm_compute in H. discriminate H.
Defined.


(** Two UUIDs that differ in their last bit only. *)
Lemma key_uses_top_32_bits_of_uuid_witness :
  file_name_of "2025-06-23T14:05:09" (sample_entropy 0) =
  file_name_of "2025-06-23T14:05:09" (sample_entropy 0 + 1) <->
  N.shiftr (sample_entropy 0) 96 = N.shiftr (sample_entropy 0 + 1) 96.
Proof.
  apply (key_uses_top_32_bits_of_uuid "2025-06-23T14:05:09" (sample_entropy 0)
           (sample_entropy 0 + 1)).
  - vm_compute. reflexivity.
  - vm_compute. reflexivity.
Defined.

(** A number as entry, a URL as bucket name: the name is refused, no upload
    is called. *)
Lemma ingest_stores_the_entry_it_is_given_witness :
  let s' :=
    snd (ingest_data_entry tree_dumps (JInt 7) (mk_client "nexusscout")
           world_bucket_url empty_state) in
  let e := mk_exn ValueError "Bucket names must start and end with a number or letter." in
  ticks s' = S (ticks empty_state) /\ draws s' = S (draws empty_state) /\
  bucket s' = bucket empty_state /\ stdout s' = stdout empty_state /\
  ((validate_name (CLOUD_STORAGE_BUCKET world_bucket_url) = inl e /\
    uploads s' = uploads empty_state) \/
   (validate_name (CLOUD_STORAGE_BUCKET world_bucket_url) =
      inr (CLOUD_STORAGE_BUCKET world_bucket_url) /\
    upload_fault world_bucket_url (uploads empty_state) = Some e /\
    uploads s' = S (uploads empty_state))).
Proof.
  cbv zeta.
  apply (ingest_stores_the_entry_it_is_given json tree_dumps tree_loads
           (fun v n => eq_refl) (JInt 7) (mk_client "nexusscout") world_bucket_url
           empty_state
           (snd (ingest_data_entry tree_dumps (JInt 7) (mk_client "nexusscout")
                   world_bucket_url empty_state))
           (inl (mk_exn ValueError
                   "Bucket names must start and end with a number or letter."))).
  vm_compute. reflexivity.
Defined.

(** Five posts with 200 and the first three of them with 203. *)
Lemma only_status_class_and_first_three_items_matter_witness :
  chronicle_harvester_agent tree_dumps tt
    (with_response world_two_posts response_five_posts) empty_state =
  chronicle_harvester_agent tree_dumps tt
    (with_response world_two_posts response_three_posts) empty_state.
Proof.
  apply (only_status_class_and_first_three_items_matter json tree_dumps tt
           world_two_posts empty_state response_five_posts response_three_posts
           five_posts [JObj first_post; JObj second_post; JObj third_post]);
    reflexivity.
Defined.

Lemma sample_clock_inj (m n : nat) : sample_clock m = sample_clock n -> m = n.
Proof.
  unfold sample_clock. intros H. injection H as H. now apply Nat2N.inj.
Qed.

(** Two runs, eight readings of a clock that moves on: four different keys. *)
Lemma fresh_clock_gives_fresh_keys_witness :
  NoDup (map obj_name (bucket state_after_one_run ++
                       skipn 2 (bucket (snd second_sample_run)))).
Proof.
  unfold second_sample_run, state_after_one_run, sample_run.
  apply (fresh_clock_gives_fresh_keys json tree_dumps tt tt world_two_posts
           empty_state
           (snd (chronicle_harvester_agent tree_dumps tt world_two_posts empty_state))
           (snd (chronicle_harvester_agent tree_dumps tt world_two_posts empty_state))
           (snd (chronicle_harvester_agent tree_dumps tt world_two_posts
                   (snd (chronicle_harvester_agent tree_dumps tt world_two_posts
                           empty_state))))
           (fst (chronicle_harvester_agent tree_dumps tt world_two_posts empty_state))
           (fst (chronicle_harvester_agent tree_dumps tt world_two_posts
                   (snd (chronicle_harvester_agent tree_dumps tt world_two_posts
                           empty_state))))).
  - intros n Hn. apply sample_clock_valid.
    assert (ticks
              (snd (chronicle_harvester_agent tree_dumps tt world_two_posts
                      (snd (chronicle_harvester_agent tree_dumps tt world_two_posts
                              empty_state)))) = 8) as E by (vm_compute; reflexivity).
    rewrite E in Hn. lia.
  - intros m n _ _. apply sample_clock_inj.
  - apply surjective_pairing.
  - reflexivity.
  - apply surjective_pairing.
  - vm_compute. reflexivity.
  - apply Nat.le_refl.
Defined.

(** The two posts harvested twice: four objects. *)
Lemma second_run_stores_the_feed_again_witness :
  exists ds,
    feed_selection world_two_posts = map JObj ds /\
    bucket (snd second_sample_run) =
      bucket empty_state ++
      stored_objects tree_dumps world_two_posts (ticks empty_state)
        (draws empty_state) ds ++
      stored_objects tree_dumps world_two_posts (ticks state_after_one_run)
        (draws state_after_one_run) ds /\
    List.length (bucket (snd second_sample_run)) =
      List.length (bucket empty_state) +
      2 * List.length (feed_selection world_two_posts).
Proof.
  unfold second_sample_run, state_after_one_run, sample_run.
  apply (second_run_stores_the_feed_again json tree_dumps tt tt world_two_posts
           empty_state
           (snd (chronicle_harvester_agent tree_dumps tt world_two_posts empty_state))
           (snd (chronicle_harvester_agent tree_dumps tt world_two_posts
                   (snd (chronicle_harvester_agent tree_dumps tt world_two_posts
                           empty_state))))
           (success_body ["raw_data/2025-06-23T14:05:09.000001-deadbeef.json";
                          "raw_data/2025-06-23T14:05:09.000003-deadbef0.json"])
           (success_body ["raw_data/2025-06-23T14:05:09.000005-deadbef1.json";
                          "raw_data/2025-06-23T14:05:09.000007-deadbef2.json"])).
  - vm_compute. reflexivity.
  - vm_compute. reflexivity.
Defined.

(** The first object of the scenario: harvested at 14:05:09, named one
    microsecond later. *)
Lemma key_time_is_read_after_harvest_time_witness :
  exists stored u,
    tree_loads (obj_data (stored_object tree_dumps world_two_posts 0 0 first_post)) =
      Some (JObj stored) /\
    dict_get "harvest_timestamp" stored =
      Some (JStr (isoformat (sample_clock 0))) /\
    obj_name (stored_object tree_dumps world_two_posts 0 0 first_post) =
      file_name_of (isoformat (sample_clock 1)) u /\
    (valid_datetime (sample_clock 0) -> valid_datetime (sample_clock 1) ->
     sample_clock 0 <> sample_clock 1 ->
     forall u',
       obj_name (stored_object tree_dumps world_two_posts 0 0 first_post) <>
       file_name_of (isoformat (sample_clock 0)) u').
Proof.
  apply (key_time_is_read_after_harvest_time json tree_dumps tree_loads
           (fun v n => eq_refl) tt world_two_posts empty_state
           (snd (chronicle_harvester_agent tree_dumps tt world_two_posts empty_state))
           (fst (chronicle_harvester_agent tree_dumps tt world_two_posts empty_state))
           (bucket
              (snd (chronicle_harvester_agent tree_dumps tt world_two_posts
                      empty_state)))
           0 (stored_object tree_dumps world_two_posts 0 0 first_post)).
  - apply surjective_pairing.
  - reflexivity.
  - reflexivity.
Defined.

(** An empty bucket name: the first post is not stored, no upload is called. *)
Lemma refused_bucket_name_stores_nothing_witness :
  bucket (snd (sample_run world_bucket_empty)) = bucket empty_state /\
  uploads (snd (sample_run world_bucket_empty)) = uploads empty_state /\
  fst (sample_run world_bucket_empty) =
    Returned
      (JObj [("status", JStr "error");
             ("message",
              JStr "An unexpected error occurred: string index out of range")])
      500%Z.
Proof.
  unfold sample_run.
  destruct (refused_bucket_name_stores_nothing json tree_dumps tt world_bucket_empty
              empty_state
              (snd (chronicle_harvester_agent tree_dumps tt world_bucket_empty
                      empty_state))
              (fst (chronicle_harvester_agent tree_dumps tt world_bucket_empty
                      empty_state))
              (mk_exn IndexError "string index out of range")
              eq_refl (surjective_pairing _)) as (Hbucket & Hcalls & Hout).
  split; [exact Hbucket|]. split; [exact Hcalls|].
  apply (Hout (sample_response 200 "OK" (inr (JArr two_posts))) first_post
           [JObj second_post]); reflexivity.
Defined.
